(** * keystone_json_assignment: a static user/project overlay on the SQL
      assignment driver

    Shallow embedding of [keystone_json_assignment/json.py].  The class
    [Assignment] extends the host framework's [sql.Assignment]; the SQL
    driver and the managers loaded by [_setup_managers] belong to the host
    and are interfaces here (type classes), everything else is translated
    from the Python source.

    - Python exceptions are values of [exn]; a call yields a [result].
    - Stateful code runs in a state-and-exception monad [M S]: construction
      threads the log, the driver methods thread a [world] (the object, the
      SQL store and the log).
    - A Python [dict] is an insertion-ordered association list with unique
      keys, so that [items()] enumerates in the order the source does. *)

From stdpp Require Import base decidable option list strings.

Set Warnings "-clear-no-such-hyp".
Open Scope string_scope.
Open Scope list_scope.

(** ** Exceptions and results *)

Inductive exn_class :=
  | RoleAssignmentNotFound
  | UserNotFound
  | ProjectNotFound
  | KeyError
  | IndexError
  | AttributeError
  | OtherException (name : string).

#[global] Instance exn_class_eq_dec : EqDecision exn_class.
Proof. solve_decision. Defined.

(** An exception object: its class and its text ([str(e)]). *)
Record exn := Exn { class : exn_class; text : string }.

#[global] Instance exn_eq_dec : EqDecision exn.
Proof. solve_decision. Defined.

Inductive result (A : Type) :=
  | Return (a : A)
  | Raise (e : exn).
Arguments Return {A} a.
Arguments Raise {A} e.

(** [raises c r]: the call ended by raising an exception of class [c]. *)
Definition raises {A} (c : exn_class) (r : result A) : Prop :=
  match r with
  | Raise e => class e = c
  | Return _ => False
  end.

#[global] Instance raises_dec {A} c (r : result A) : Decision (raises c r).
Proof. destruct r; simpl; apply _. Defined.

(** ** The state-and-exception monad *)

Definition M (S A : Type) : Type := S -> result A * S.

Definition ret {S A} (a : A) : M S A := fun s => (Return a, s).
Definition raise {S A} (e : exn) : M S A := fun s => (Raise e, s).
Definition bind {S A B} (m : M S A) (k : A -> M S B) : M S B :=
  fun s =>
    match m s with
    | (Return a, s') => k a s'
    | (Raise e, s') => (Raise e, s')
    end.
(** A pure call that may raise. *)
Definition lift {S A} (r : result A) : M S A := fun s => (r, s).
Definition gets {S A} (f : S -> A) : M S A := fun s => (Return (f s), s).
Definition modify {S} (f : S -> S) : M S unit := fun s => (Return tt, f s).

Notation "x <- c ;; k" := (bind c (fun x => k))
  (at level 100, c at next level, right associativity).
Notation "c ;;; k" := (bind c (fun _ => k))
  (at level 100, right associativity).

(** [try: body except cls as e: handler e].  Only an exception of class
    [cls] is handled; any other one propagates. *)
Definition try_except {S A} (body : M S A) (cls : exn_class)
    (handler : exn -> M S A) : M S A :=
  fun s =>
    match body s with
    | (Raise e, s') =>
        if decide (class e = cls) then handler e s' else (Raise e, s')
    | (Return a, s') => (Return a, s')
    end.

(** [for x in l: acc = body x acc], stopped by the first exception. *)
Fixpoint for_each {S A B} (l : list A) (body : A -> B -> M S B) (acc : B)
    : M S B :=
  match l with
  | [] => ret acc
  | x :: l' => acc' <- body x acc ;; for_each l' body acc'
  end.

(** ** Python dictionaries and sequences *)

Section pydict.
Context {K V : Type} `{EqDecision K}.

Definition dict : Type := list (K * V).

(** [d.get(k)] *)
Fixpoint dict_get (d : dict) (k : K) : option V :=
  match d with
  | [] => None
  | (k', v) :: d' => if decide (k = k') then Some v else dict_get d' k
  end.

(** [k in d] *)
Definition dict_contains (d : dict) (k : K) : bool :=
  match dict_get d k with Some _ => true | None => false end.

(** [d[k] = v]: an existing key keeps its place, a new one goes last. *)
Fixpoint dict_setitem (d : dict) (k : K) (v : V) : dict :=
  match d with
  | [] => [(k, v)]
  | (k', v') :: d' =>
      if decide (k = k') then (k, v) :: d'
      else (k', v') :: dict_setitem d' k v
  end.

(** [d.items()] and iteration over [d] *)
Definition dict_items (d : dict) : list (K * V) := d.
Definition dict_keys (d : dict) : list K := d.*1.

(** [d[k]], raising [KeyError] on a missing key. *)
Definition getitem (d : dict) (k : K) : result V :=
  match dict_get d k with
  | Some v => Return v
  | None => Raise (Exn KeyError "")
  end.

(** The same two operations when the key expression may be [None]:
    [None] is never a key of the dictionaries of this module. *)
Definition opt_in (k : option K) (d : dict) : bool :=
  match k with Some k => dict_contains d k | None => false end.
Definition opt_getitem (d : dict) (k : option K) : result V :=
  match k with
  | Some k => getitem d k
  | None => Raise (Exn KeyError "")
  end.
End pydict.
Arguments dict : clear implicits.

(** [l[i]], raising [IndexError] out of range. *)
Definition index {A} (l : list A) (i : nat) : result A :=
  match l !! i with
  | Some a => Return a
  | None => Raise (Exn IndexError "list index out of range")
  end.

(** Truth value of an expression that is [None] or a string. *)
Definition truthy (o : option string) : bool :=
  match o with
  | Some s => bool_decide (s ≠ "")
  | None => false
  end.

(** Entities of the host (users, projects, roles, assignments) are
    dictionaries from attribute names to strings. *)
Abbreviation entity := (dict string string).

(** [driver_hints.Hints]: the list of filters added so far. *)
Definition Hints : Type := list (string * string).
Definition Hints_new : Hints := [].
Definition add_filter (name value : string) (h : Hints) : Hints :=
  h ++ [(name, value)].

Inductive log_entry :=
  | Debug (msg : string)
  | Warning (msg : string).

(** ** Configuration and the host's interfaces *)

(** The options read from [CONF]. *)
Record Conf := {
  default_roles : list string;       (* json_assignment.default_roles *)
  ldap_domain_name : string;         (* json_assignment.ldap_domain_name *)
  default_domain_id : string         (* identity.default_domain_id *)
}.

(** The drivers loaded by [_setup_managers]. *)
Class Managers := {
  resource_get_project_by_name : string -> option string -> result entity;
  identity_get_user_by_name : string -> string -> result entity;
  id_mapping_get_public_id : entity -> result (option string);
  role_list_roles : Hints -> result (list entity)
}.

(** Keyword arguments of the grant methods. *)
Module Grant.
Record args := Args {
  user_id : option string;
  group_id : option string;
  domain_id : option string;
  project_id : option string;
  inherited_to_projects : bool
}.
End Grant.

(** Keyword arguments of [list_role_assignments]. *)
Module Filter.
Record args := Args {
  role_id : option string;
  user_id : option string;
  group_ids : option (list string);
  domain_id : option string;
  project_ids : option (list string);
  inherited_to_projects : option bool
}.
End Filter.

(** The superclass [sql.Assignment], over its store [DB]; [value] is what
    its write methods return. *)
Class SqlAssignment (DB value : Type) := {
  sql_list_grant_role_ids : Grant.args -> M DB (list string);
  sql_check_grant_role_id : string -> Grant.args -> M DB unit;
  sql_list_role_assignments : Filter.args -> M DB (list entity);
  sql_add_role_to_user_and_project : string -> string -> string -> M DB value;
  sql_remove_role_from_user_and_project :
    string -> string -> string -> M DB value;
  sql_create_grant : string -> Grant.args -> M DB value;
  sql_delete_grant : string -> Grant.args -> M DB value;
  sql_delete_project_assignments : string -> M DB value;
  sql_delete_role_assignments : string -> M DB value;
  sql_delete_user_assignments : string -> M DB value;
  sql_delete_group_assignments : string -> M DB value;
  sql_delete_domain_assignments : string -> M DB value
}.

(** ** The driver object *)

(** The attributes [__init__] sets on [self]. *)
Record Assignment := {
  domain_name : string;
  domain_id : string;
  role_id : string;
  userprojectmap : dict string (dict string nat)
}.

(** ** Construction *)

Section construction.
Context (CONF : Conf) `{Managers}.

(** Construction only changes the log. *)
Definition LOG_warning (msg : string) : M (list log_entry) unit :=
  modify (fun lg => lg ++ [Warning msg]).

Definition _get_role_id : M (list log_entry) string :=
  role_name <- lift (index (default_roles CONF) 0) ;;
  let role_name_filter := add_filter "name" role_name Hints_new in
  roles <- lift (role_list_roles role_name_filter) ;;
  role <- lift (index roles 0) ;;
  lift (getitem role "id").

(** [self_domain_name] and [self_domain_id] are the two attributes of
    [self] the method reads.  The handler returns [None] from the method;
    the public-id lookup is outside the [try] block. *)
Definition _get_user_id (self_domain_name self_domain_id user_name : string)
    : M (list log_entry) (option string) :=
  found <- try_except
    (user <- lift (identity_get_user_by_name user_name self_domain_name) ;;
     user_id <- lift (getitem user "id") ;;
     ret (Some user_id))
    UserNotFound
    (fun _ =>
       LOG_warning ("Could not find user: " +:+ user_name) ;;; ret None) ;;
  match found with
  | None => ret None
  | Some user_id =>
      lift (id_mapping_get_public_id
              [("domain_id", self_domain_id);
               ("local_id", user_id);
               ("entity_type", "user")])
  end.

(** The variables the loop over one user's project names updates. *)
Record project_loop := ProjectLoop {
  projectid : option string;
  projectidcache : dict string string;
  projectids : dict string nat
}.

(** [if projectid: projectids[projectid] = 1] *)
Definition record_projectid (st : project_loop) : project_loop :=
  match projectid st with
  | Some id =>
      if truthy (Some id)
      then ProjectLoop (projectid st) (projectidcache st)
                       (dict_setitem (projectids st) id 1)
      else st
  | None => st
  end.

(** [e.message]: an exception object has no attribute [message] (the host's
    exception classes define none), so the access raises
    [AttributeError]. *)
Definition get_message (e : exn) : result string :=
  Raise (Exn AttributeError "object has no attribute 'message'").

(** Body of [for projectname in project].  [projectid] is not reset
    between two names.  The handler of [ProjectNotFound] evaluates
    [e.message] before it logs: that raises, and nothing catches it. *)
Definition project_body (projectname : string) (st : project_loop)
    : M (list log_entry) project_loop :=
  st <-
    match dict_get (projectidcache st) projectname with
    | Some cached => ret (ProjectLoop (Some cached) (projectidcache st)
                                      (projectids st))
    | None =>
        (* cache miss - need to fetch from DB *)
        try_except
          (project <- lift (resource_get_project_by_name projectname
                              (Some (default_domain_id CONF))) ;;
           fetched <- lift (getitem project "id") ;;
           fetched' <- lift (getitem project "id") ;;
           ret (ProjectLoop (Some fetched)
                  (dict_setitem (projectidcache st) projectname fetched')
                  (projectids st)))
          ProjectNotFound
          (fun e => msg <- lift (get_message e) ;; LOG_warning msg ;;; ret st)
    end ;;
  ret (record_projectid st).

(** Body of [for user, project in userprojectmap.items()]; the state is
    [self.userprojectmap] and [projectidcache].  [if not user_id: continue]
    skips both [None] and the empty string. *)
Definition user_body (self_domain_name self_domain_id : string)
    (item : string * list string)
    (st : dict string (dict string nat) * dict string string)
    : M (list log_entry) (dict string (dict string nat) * dict string string) :=
  let user := item.1 in
  let project := item.2 in
  user_id <- _get_user_id self_domain_name self_domain_id user ;;
  match user_id with
  | Some uid =>
      if negb (truthy (Some uid)) then ret st (* continue *)
      else
        inner <- for_each project project_body
                   (ProjectLoop None st.2 []) ;;
        ret (dict_setitem st.1 uid (projectids inner),
             projectidcache inner)
  | None => ret st (* continue *)
  end.

(** [map_file] is what [yaml.load] returns for the map file: a dictionary
    from user names to lists of project names. *)
Definition __init__ (map_file : dict string (list string))
    : M (list log_entry) Assignment :=
  let self_domain_name := ldap_domain_name CONF in
  domain <- lift (resource_get_project_by_name self_domain_name None) ;;
  self_domain_id <- lift (getitem domain "id") ;;
  self_role_id <- _get_role_id ;;
  final <- for_each (dict_items map_file)
             (user_body self_domain_name self_domain_id) ([], []) ;;
  ret {| domain_name := self_domain_name;
         domain_id := self_domain_id;
         role_id := self_role_id;
         userprojectmap := final.1 |}.
End construction.

(** ** The methods *)

Record world (DB : Type) := World {
  self : Assignment;
  db : DB;
  log : list log_entry
}.
Arguments World {DB} self db log.
Arguments self {DB} w.
Arguments db {DB} w.
Arguments log {DB} w.

Section methods.
Context {DB value : Type} `{!SqlAssignment DB value}.

(** A call of the superclass's method: it runs on the store. *)
Definition super {A} (m : M DB A) : M (world DB) A :=
  fun w =>
    let r := m (db w) in
    (r.1, World (self w) r.2 (log w)).

Definition LOG_debug (msg : string) : M (world DB) unit :=
  modify (fun w => World (self w) (db w) (log w ++ [Debug msg])).

Definition list_grant_role_ids (a : Grant.args) : M (world DB) (list string) :=
  role_ids <- super (sql_list_grant_role_ids a) ;;
  this <- gets self ;;
  if opt_in (Grant.user_id a) (userprojectmap this)
  then
    projects <- lift (opt_getitem (userprojectmap this) (Grant.user_id a)) ;;
    if opt_in (Grant.project_id a) projects
    then ret (role_ids ++ [role_id this])
    else ret role_ids
  else ret role_ids.

Definition check_grant_role_id (role : string) (a : Grant.args)
    : M (world DB) unit :=
  try_except
    (super (sql_check_grant_role_id role a))
    RoleAssignmentNotFound
    (fun e =>
       this <- gets self ;;
       if negb (bool_decide (role = role_id this)) then raise e
       else if negb (opt_in (Grant.user_id a) (userprojectmap this))
       then raise e
       else
         projects <- lift (opt_getitem (userprojectmap this)
                                       (Grant.user_id a)) ;;
         if negb (opt_in (Grant.project_id a) projects) then raise e
         else ret tt).

(** The record appended for one user and one project. *)
Definition synthetic (this : Assignment) (user project : string) : entity :=
  [("role_id", role_id this); ("user_id", user); ("project_id", project)].

Definition list_role_assignments (f : Filter.args)
    : M (world DB) (list entity) :=
  role_assignments <- super (sql_list_role_assignments f) ;;
  this <- gets self ;;
  ret (foldl
         (fun acc item =>
            foldl (fun acc project => acc ++ [synthetic this item.1 project])
                  acc (dict_keys item.2))
         role_assignments
         (dict_items (userprojectmap this))).

Definition forwarding : M (world DB) unit :=
  LOG_debug "Forwarding request to the SQL assignment driver".

Definition add_role_to_user_and_project (user tenant role : string)
    : M (world DB) value :=
  forwarding ;;; super (sql_add_role_to_user_and_project user tenant role).

Definition remove_role_from_user_and_project (user tenant role : string)
    : M (world DB) value :=
  forwarding ;;;
  super (sql_remove_role_from_user_and_project user tenant role).

Definition create_grant (role : string) (a : Grant.args) : M (world DB) value :=
  forwarding ;;; super (sql_create_grant role a).

Definition delete_grant (role : string) (a : Grant.args) : M (world DB) value :=
  forwarding ;;; super (sql_delete_grant role a).

Definition delete_project_assignments (project : string) : M (world DB) value :=
  forwarding ;;; super (sql_delete_project_assignments project).

Definition delete_role_assignments (role : string) : M (world DB) value :=
  forwarding ;;; super (sql_delete_role_assignments role).

Definition delete_user_assignments (user : string) : M (world DB) value :=
  forwarding ;;; super (sql_delete_user_assignments user).

Definition delete_group_assignments (group : string) : M (world DB) value :=
  forwarding ;;; super (sql_delete_group_assignments group).

Definition delete_domain_assignments (domain : string) : M (world DB) value :=
  forwarding ;;; super (sql_delete_domain_assignments domain).
End methods.

(** ** The overlay, as the specification words it *)

(** [user] is a key of the map and [project] is one of its projects. *)
Definition in_overlay (this : Assignment) (user project : option string)
    : Prop :=
  match user, project with
  | Some u, Some p =>
      match dict_get (userprojectmap this) u with
      | Some projects => p ∈ dict_keys projects
      | None => False
      end
  | _, _ => False
  end.

#[global] Instance in_overlay_dec this user project :
  Decision (in_overlay this user project).
Proof.
  unfold in_overlay. destruct user, project; try apply _.
  destruct (dict_get _ _); apply _.
Defined.

(** The records of the overlay, user by user in the order of the map. *)
Definition overlay_assignments (this : Assignment) : list entity :=
  flat_map
    (fun item => map (synthetic this item.1) (dict_keys item.2))
    (dict_items (userprojectmap this)).

(** ** Calls

    The twelve methods as one type of calls, to speak of any sequence of
    operations on the driver. *)

Inductive call :=
  | ListGrantRoleIds (a : Grant.args)
  | CheckGrantRoleId (role : string) (a : Grant.args)
  | ListRoleAssignments (f : Filter.args)
  | AddRoleToUserAndProject (user tenant role : string)
  | RemoveRoleFromUserAndProject (user tenant role : string)
  | CreateGrant (role : string) (a : Grant.args)
  | DeleteGrant (role : string) (a : Grant.args)
  | DeleteProjectAssignments (project : string)
  | DeleteRoleAssignments (role : string)
  | DeleteUserAssignments (user : string)
  | DeleteGroupAssignments (group : string)
  | DeleteDomainAssignments (domain : string).

Section calls.
Context {DB value : Type} `{!SqlAssignment DB value}.

(** The state a call leaves, whether it returns or raises. *)
Definition invoke (c : call) (w : world DB) : world DB :=
  match c with
  | ListGrantRoleIds a => (list_grant_role_ids a w).2
  | CheckGrantRoleId role a => (check_grant_role_id role a w).2
  | ListRoleAssignments f => (list_role_assignments f w).2
  | AddRoleToUserAndProject user tenant role =>
      (add_role_to_user_and_project user tenant role w).2
  | RemoveRoleFromUserAndProject user tenant role =>
      (remove_role_from_user_and_project user tenant role w).2
  | CreateGrant role a => (create_grant role a w).2
  | DeleteGrant role a => (delete_grant role a w).2
  | DeleteProjectAssignments project =>
      (delete_project_assignments project w).2
  | DeleteRoleAssignments role => (delete_role_assignments role w).2
  | DeleteUserAssignments user => (delete_user_assignments user w).2
  | DeleteGroupAssignments group => (delete_group_assignments group w).2
  | DeleteDomainAssignments domain => (delete_domain_assignments domain w).2
  end.

Definition invoke_all (cs : list call) (w : world DB) : world DB :=
  foldl (fun w c => invoke c w) w cs.

(** The sentence on [check_grant_role_id] read to the letter: it raises
    [RoleAssignmentNotFound] exactly when the SQL check does and the grant
    is not one of the overlay, and returns [None] in every other case. *)
Definition check_grant_role_id_as_stated (role : string) (a : Grant.args)
    (w : world DB) : Prop :=
  (raises RoleAssignmentNotFound (check_grant_role_id role a w).1 ↔
     raises RoleAssignmentNotFound (sql_check_grant_role_id role a (db w)).1 ∧
     ¬ (role = role_id (self w) ∧
        in_overlay (self w) (Grant.user_id a) (Grant.project_id a))) ∧
  (¬ raises RoleAssignmentNotFound (check_grant_role_id role a w).1 →
     (check_grant_role_id role a w).1 = Return tt).
End calls.

(** ** The calls, on the SQL driver alone *)

Section sql_calls.
Context {DB value : Type} `{!SqlAssignment DB value}.

(** The store the superclass's method of the same name leaves. *)
Definition sql_invoke (c : call) (d : DB) : DB :=
  match c with
  | ListGrantRoleIds a => (sql_list_grant_role_ids a d).2
  | CheckGrantRoleId role a => (sql_check_grant_role_id role a d).2
  | ListRoleAssignments f => (sql_list_role_assignments f d).2
  | AddRoleToUserAndProject user tenant role =>
      (sql_add_role_to_user_and_project user tenant role d).2
  | RemoveRoleFromUserAndProject user tenant role =>
      (sql_remove_role_from_user_and_project user tenant role d).2
  | CreateGrant role a => (sql_create_grant role a d).2
  | DeleteGrant role a => (sql_delete_grant role a d).2
  | DeleteProjectAssignments project =>
      (sql_delete_project_assignments project d).2
  | DeleteRoleAssignments role => (sql_delete_role_assignments role d).2
  | DeleteUserAssignments user => (sql_delete_user_assignments user d).2
  | DeleteGroupAssignments group => (sql_delete_group_assignments group d).2
  | DeleteDomainAssignments domain => (sql_delete_domain_assignments domain d).2
  end.

Definition sql_invoke_all (cs : list call) (d : DB) : DB :=
  foldl (fun d c => sql_invoke c d) d cs.
End sql_calls.

(** The nine methods that forward to the SQL driver. *)
Definition is_write (c : call) : bool :=
  match c with
  | ListGrantRoleIds _ | CheckGrantRoleId _ _ | ListRoleAssignments _ => false
  | _ => true
  end.

(** ** Resolution of names

    What it means for a name of the map file to resolve, in the words of
    the specification. *)

Section resolution.
Context (CONF : Conf) `{Managers}.

(** [_get_user_id] finds the public id [uid] for the user name. *)
Definition resolves_to_user (this : Assignment) (user uid : string) : Prop :=
  (_get_user_id (domain_name this) (domain_id this) user []).1
    = Return (Some uid).

(** The resource driver finds the project name in the default domain, and
    [pid] is the id of the project. *)
Definition resolves_to_project (name pid : string) : Prop :=
  ∃ project,
    resource_get_project_by_name name (Some (default_domain_id CONF))
      = Return project ∧
    getitem project "id" = Return pid.

(** [projects] holds the non-empty ids the names resolve to, no more. *)
Definition project_set (names : list string) (projects : dict string nat)
    : Prop :=
  ∀ pid, pid ∈ dict_keys projects ↔
         pid ≠ "" ∧ ∃ name, name ∈ names ∧ resolves_to_project name pid.

End resolution.

(** ** Vocabulary of the proofs about construction *)

(** [writes m r out]: from any log, [m] ends with [r] and has appended
    [out]. *)
Definition writes {A} (m : M (list log_entry) A) (r : result A)
    (out : list log_entry) : Prop :=
  ∀ lg, m lg = (r, lg ++ out).

Definition logs_only {A} (m : M (list log_entry) A) : Prop :=
  ∃ r out, writes m r out.

Section invariants.
Context (CONF : Conf) `{Managers}.

(** The cache only holds ids the resource driver gave. *)
Definition cache_ok (cache : dict string string) : Prop :=
  ∀ name pid, dict_get cache name = Some pid →
              resolves_to_project CONF name pid.

(** Invariant of the loop over the project names of one user, [seen] being
    the names handled so far. *)
Record project_inv (seen : list string) (st : project_loop) : Prop := {
  project_inv_cache : cache_ok (projectidcache st);
  project_inv_set : project_set CONF seen (projectids st);
  project_inv_nodup : NoDup (dict_keys (projectids st));
  project_inv_last : ∀ pid,
    projectid st = Some pid → pid ≠ "" → pid ∈ dict_keys (projectids st)
}.

(** Invariant of the loop over the items of the file, [seen] being the
    items handled so far: a public id is a key of the map exactly when it
    is not empty and some user name seen resolves to it, and it is mapped
    to the projects of the last such name. *)
Record user_inv (this : Assignment) (seen : list (string * list string))
    (st : dict string (dict string nat) * dict string string) : Prop := {
  user_inv_cache : cache_ok st.2;
  user_inv_nodup : NoDup (dict_keys st.1);
  user_inv_sets : ∀ uid projects,
    dict_get st.1 uid = Some projects → NoDup (dict_keys projects);
  user_inv_map : ∀ uid,
    match dict_get st.1 uid with
    | Some projects =>
        uid ≠ "" ∧
        ∃ before user names after,
          seen = before ++ (user, names) :: after ∧
          resolves_to_user this user uid ∧
          Forall (λ item, ¬ resolves_to_user this item.1 uid) after ∧
          project_set CONF names projects
    | None =>
        uid = "" ∨ Forall (λ item, ¬ resolves_to_user this item.1 uid) seen
    end
}.
End invariants.

(** ** A small host, to run the driver on

    An in-memory stand-in for the host framework: the assignment table is a
    list of rows that may be unreachable, the directory finds user names
    without regard to the case of their first letter. *)

Module Demo.
Record row := Row { row_role : string; row_user : string; row_project : string }.

#[export] Instance row_eq_dec : EqDecision row.
Proof. solve_decision. Defined.

(** [None]: the connection to the database is lost. *)
Definition store : Type := option (list row).

Definition connected {A} (f : list row -> A * list row) : M store A :=
  fun s =>
    match s with
    | Some rows => let r := f rows in (Return r.1, Some r.2)
    | None => (Raise (Exn (OtherException "DBConnectionError") "db down"), None)
    end.

Definition targets (a : Grant.args) (r : row) : bool :=
  bool_decide (Grant.user_id a = Some (row_user r)) &&
  bool_decide (Grant.project_id a = Some (row_project r)).

Definition as_entity (r : row) : entity :=
  [("user_id", row_user r); ("role_id", row_role r);
   ("project_id", row_project r)].

Definition selected (f : Filter.args) (r : row) : bool :=
  match Filter.role_id f with
  | Some x => bool_decide (x = row_role r) | None => true
  end &&
  match Filter.user_id f with
  | Some x => bool_decide (x = row_user r) | None => true
  end &&
  match Filter.project_ids f with
  | Some xs => bool_decide (row_project r ∈ xs) | None => true
  end.

Definition grant_row (role : string) (a : Grant.args) : list row :=
  match Grant.user_id a, Grant.project_id a with
  | Some u, Some p => [Row role u p]
  | _, _ => []
  end.

Definition drop (keep : row -> bool) : M store unit :=
  connected (fun rows => (tt, filter (fun r => keep r = true) rows)).

#[export] Instance sql : SqlAssignment store unit := {
  sql_list_grant_role_ids a :=
    connected (fun rows =>
      (map row_role (filter (fun r => targets a r = true) rows), rows));
  sql_check_grant_role_id role a := fun s =>
    match s with
    | Some rows =>
        if bool_decide (Exists (fun r => targets a r = true ∧ row_role r = role) rows)
        then (Return tt, s)
        else (Raise (Exn RoleAssignmentNotFound "no such grant"), s)
    | None => (Raise (Exn (OtherException "DBConnectionError") "db down"), s)
    end;
  sql_list_role_assignments f :=
    connected (fun rows =>
      (map as_entity (filter (fun r => selected f r = true) rows), rows));
  sql_add_role_to_user_and_project user tenant role :=
    connected (fun rows => (tt, rows ++ [Row role user tenant]));
  sql_remove_role_from_user_and_project user tenant role :=
    drop (fun r => negb (bool_decide (r = Row role user tenant)));
  sql_create_grant role a :=
    connected (fun rows => (tt, rows ++ grant_row role a));
  sql_delete_grant role a :=
    drop (fun r => negb (targets a r && bool_decide (row_role r = role)));
  sql_delete_project_assignments project :=
    drop (fun r => negb (bool_decide (row_project r = project)));
  sql_delete_role_assignments role :=
    drop (fun r => negb (bool_decide (row_role r = role)));
  sql_delete_user_assignments user :=
    drop (fun r => negb (bool_decide (row_user r = user)));
  sql_delete_group_assignments _ := drop (fun _ => true);
  sql_delete_domain_assignments _ := drop (fun _ => true)
}.

Definition CONF : Conf := {|
  default_roles := ["Member"];
  ldap_domain_name := "ldap_users";
  default_domain_id := "default"
|}.

Definition not_found {A} (c : exn_class) (what : string) : result A :=
  Raise (Exn c ("Could not find: " +:+ what)).

#[export] Instance managers : Managers := {
  resource_get_project_by_name name domain :=
    if bool_decide (name = "ldap_users" ∧ domain = None)
    then Return [("id", "d-ldap"); ("name", name)]
    else if bool_decide (name = "alpha" ∧ domain = Some "default")
    then Return [("id", "p-alpha"); ("name", name)]
    else if bool_decide (name = "beta" ∧ domain = Some "default")
    then Return [("id", "p-beta"); ("name", name)]
    else not_found ProjectNotFound name;
  identity_get_user_by_name name domain :=
    if bool_decide (domain = "ldap_users" ∧ (name = "alice" ∨ name = "Alice"))
    then Return [("id", "cn=alice"); ("name", "alice")]
    else if bool_decide (domain = "ldap_users" ∧ name = "bob")
    then Return [("id", "cn=bob"); ("name", "bob")]
    else not_found UserNotFound name;
  id_mapping_get_public_id local :=
    match dict_get local "local_id" with
    | Some "cn=alice" => Return (Some "u-alice")
    | Some "cn=bob" => Return (Some "u-bob")
    | _ => Return None
    end;
  role_list_roles hints :=
    if bool_decide (hints = [("name", "Member")])
    then Return [[("id", "r-member"); ("name", "Member")];
                 [("id", "r-member-2"); ("name", "Member")]]
    else Return []
}.

(** Two map files: one with a user the host does not know and a project
    listed twice, one with two spellings of the same user. *)
Definition map_file : dict string (list string) :=
  [("alice", ["alpha"; "beta"; "alpha"]); ("carol", ["alpha"]);
   ("bob", ["beta"])].

(** The object [__init__] builds from [map_file]. *)
Definition driver : Assignment := {|
  domain_name := "ldap_users";
  domain_id := "d-ldap";
  role_id := "r-member";
  userprojectmap :=
    [("u-alice", [("p-alpha", 1); ("p-beta", 1)]); ("u-bob", [("p-beta", 1)])]
|}.


Definition rows : list row :=
  [Row "r-admin" "u-alice" "p-alpha"; Row "r-member" "u-bob" "p-beta"].

Definition up : world store := World driver (Some rows) [].
Definition down : world store := World driver None [].

Definition grant (user project : string) : Grant.args :=
  Grant.Args (Some user) None None (Some project) false.

(** Filters that only the first row of [rows] matches. *)
Definition admin_of_alpha : Filter.args :=
  Filter.Args (Some "r-admin") (Some "u-alice") None None
              (Some ["p-alpha"]) None.

Definition init_log : list log_entry :=
  [Warning "Could not find user: carol"].
End Demo.

(** ** A host with gaps

    The small host again, with a user the directory knows but the id
    mapping does not ("dave"), a directory failure ("erin") and a resource
    failure ("omega"). *)

Module Gaps.
Definition failure {A} (name : string) : result A :=
  Raise (Exn (OtherException name) "backend failure").

#[export] Instance managers : Managers := {
  resource_get_project_by_name name domain :=
    if bool_decide (name = "omega") then failure "DBError"
    else @resource_get_project_by_name Demo.managers name domain;
  identity_get_user_by_name name domain :=
    if bool_decide (name = "dave")
    then Return [("id", "cn=dave"); ("name", "dave")]
    else if bool_decide (name = "erin") then failure "LDAPServerDown"
    else @identity_get_user_by_name Demo.managers name domain;
  id_mapping_get_public_id := @id_mapping_get_public_id Demo.managers;
  role_list_roles := @role_list_roles Demo.managers
}.

(** No role is named "Operator"; no project is the domain "nowhere". *)
Definition CONF_no_role : Conf := {|
  default_roles := ["Operator"];
  ldap_domain_name := "ldap_users";
  default_domain_id := "default"
|}.

Definition deletes : list call :=
  [DeleteUserAssignments "u-bob";
   DeleteGrant "r-member" (Demo.grant "u-bob" "p-beta");
   DeleteProjectAssignments "p-beta"].
End Gaps.

(** * Properties *)

(** ** Dictionaries *)

Section pydict_facts.
Context {K V : Type} `{EqDecision K}.
Implicit Types (d : dict K V) (k : K) (v : V).

Lemma dict_get_keys d k : is_Some (dict_get d k) ↔ k ∈ dict_keys d.
Proof.
  unfold dict_keys. induction d as [|[k' v'] d IH]; simpl.
  - split; [intros [? ?]; discriminate | intros ?%elem_of_nil; done].
  - rewrite elem_of_cons. destruct (decide (k = k')) as [->|Hne].
    + split; eauto.
    + rewrite IH. split; [by right | by intros [?|?]].
Qed.

Lemma dict_contains_keys d k : dict_contains d k = true ↔ k ∈ dict_keys d.
Proof.
  rewrite <- dict_get_keys. unfold dict_contains.
  destruct (dict_get d k) as [v|].
  - split; eauto.
  - split; [discriminate | by intros ?%is_Some_None].
Qed.

Lemma dict_get_setitem_eq d k v : dict_get (dict_setitem d k v) k = Some v.
Proof.
  induction d as [|[k' v'] d IH]; simpl.
  - by rewrite decide_True.
  - destruct (decide (k = k')) as [->|Hne]; simpl.
    + by rewrite decide_True.
    + by rewrite decide_False.
Qed.

Lemma dict_get_setitem_ne d k k' v :
  k' ≠ k → dict_get (dict_setitem d k v) k' = dict_get d k'.
Proof.
  intros Hne. induction d as [|[k0 v0] d IH]; simpl.
  - by rewrite decide_False.
  - destruct (decide (k = k0)) as [->|Hne0]; simpl.
    + by rewrite !decide_False.
    + by rewrite IH.
Qed.

Lemma dict_keys_setitem d k v k' :
  k' ∈ dict_keys (dict_setitem d k v) ↔ k' = k ∨ k' ∈ dict_keys d.
Proof.
  rewrite <- !dict_get_keys. destruct (decide (k' = k)) as [->|Hne].
  - rewrite dict_get_setitem_eq. naive_solver.
  - rewrite dict_get_setitem_ne by done. naive_solver.
Qed.

Lemma dict_keys_setitem_NoDup d k v :
  NoDup (dict_keys d) → NoDup (dict_keys (dict_setitem d k v)).
Proof.
  unfold dict_keys. induction d as [|[k' v'] d IH]; simpl; intros Hd.
  - apply NoDup_singleton.
  - apply NoDup_cons in Hd as [Hk' Hd].
    destruct (decide (k = k')) as [->|Hne]; simpl.
    + by apply NoDup_cons.
    + apply NoDup_cons. split; [|by apply IH].
      intros Hin. apply (dict_keys_setitem d k v k') in Hin.
      naive_solver.
Qed.

Lemma opt_in_true (o : option K) d :
  opt_in o d = true ↔ ∃ k, o = Some k ∧ k ∈ dict_keys d.
Proof.
  destruct o as [k|]; simpl.
  - rewrite dict_contains_keys. naive_solver.
  - naive_solver.
Qed.
End pydict_facts.

(** ** The read methods *)

Section reads.
Context {DB value : Type} `{!SqlAssignment DB value}.
Implicit Types (w : world DB) (a : Grant.args) (f : Filter.args).

(** The test of [list_grant_role_ids] and of the handler of
    [check_grant_role_id] decides [in_overlay]. *)
Lemma overlay_test this (user project : option string) :
  opt_in user (userprojectmap this) = true →
  ∃ projects,
    opt_getitem (userprojectmap this) user = Return projects ∧
    (opt_in project projects = true ↔ in_overlay this user project).
Proof.
  intros Hu. apply opt_in_true in Hu as (u & -> & Hu).
  apply dict_get_keys in Hu as [projects Hps].
  exists projects. unfold in_overlay; simpl. unfold getitem. rewrite Hps.
  split; [done|]. rewrite opt_in_true.
  destruct project as [p|].
  - split; [intros (? & [= <-] & ?); done | eauto].
  - split; [intros (? & [=] & ?) | done].
Qed.

Lemma overlay_test_false this (user project : option string) :
  opt_in user (userprojectmap this) = false →
  ¬ in_overlay this user project.
Proof.
  unfold in_overlay. destruct user as [u|], project as [p|]; simpl; try tauto.
  unfold dict_contains. destruct (dict_get _ u); [discriminate | tauto].
Qed.

(** What [list_grant_role_ids] computes, in one equation: the outcome and
    the final state of every call. *)
Lemma list_grant_role_ids_run a w :
  list_grant_role_ids a w =
    (match (sql_list_grant_role_ids a (db w)).1 with
     | Return role_ids =>
         Return (role_ids ++
                 if decide (in_overlay (self w) (Grant.user_id a)
                                       (Grant.project_id a))
                 then [role_id (self w)] else [])
     | Raise e => Raise e
     end,
     World (self w) (sql_list_grant_role_ids a (db w)).2 (log w)).
Proof.
  unfold list_grant_role_ids, bind, super, gets, lift, ret.
  destruct (sql_list_grant_role_ids a (db w)) as [[role_ids|e] d]; simpl;
    [|done].
  destruct (opt_in (Grant.user_id a) _) eqn:Hu.
  - apply (overlay_test _ _ (Grant.project_id a)) in Hu
      as (projects & -> & Hp).
    destruct (opt_in (Grant.project_id a) projects) eqn:Hin.
    + rewrite decide_True by (by apply Hp). done.
    + rewrite decide_False; [by rewrite app_nil_r|].
      intros Hov. apply Hp in Hov. congruence.
  - apply (overlay_test_false _ _ (Grant.project_id a)) in Hu.
    rewrite decide_False by done. by rewrite app_nil_r.
Qed.

(** What [check_grant_role_id] computes. *)
Lemma check_grant_role_id_run role a w :
  check_grant_role_id role a w =
    (match (sql_check_grant_role_id role a (db w)).1 with
     | Return u => Return u
     | Raise e =>
         if decide (class e = RoleAssignmentNotFound ∧
                    role = role_id (self w) ∧
                    in_overlay (self w) (Grant.user_id a)
                               (Grant.project_id a))
         then Return tt else Raise e
     end,
     World (self w) (sql_check_grant_role_id role a (db w)).2 (log w)).
Proof.
  unfold check_grant_role_id, try_except, bind, super, gets, lift, ret, raise.
  destruct (sql_check_grant_role_id role a (db w)) as [[u|e] d]; simpl;
    [done|].
  destruct (decide (class e = RoleAssignmentNotFound)) as [Hc|Hc];
    [|by rewrite decide_False by tauto].
  destruct (decide (role = role_id (self w))) as [Hr|Hr].
  2: { rewrite bool_decide_eq_false_2 by done; simpl.
       by rewrite decide_False by tauto. }
  rewrite bool_decide_eq_true_2 by done; simpl.
  destruct (opt_in (Grant.user_id a) _) eqn:Hu; simpl.
  - apply (overlay_test _ _ (Grant.project_id a)) in Hu
      as (projects & -> & Hp).
    destruct (opt_in (Grant.project_id a) projects) eqn:Hin; simpl.
    + rewrite decide_True; [done|]. repeat split; try done. by apply Hp.
    + rewrite decide_False; [done|]. intros (_ & _ & Hov).
      apply Hp in Hov. congruence.
  - apply (overlay_test_false _ _ (Grant.project_id a)) in Hu.
    by rewrite decide_False by tauto.
Qed.

(** The two nested loops of [list_role_assignments] append the records of
    the overlay. *)
Lemma append_projects this user (projects : list string) (acc : list entity) :
  foldl (fun acc project => acc ++ [synthetic this user project])
        acc projects
  = acc ++ map (synthetic this user) projects.
Proof.
  revert acc. induction projects as [|p projects IH]; intros acc; simpl.
  - by rewrite app_nil_r.
  - rewrite IH. by rewrite <- app_assoc.
Qed.

Lemma append_users this (items : list (string * dict string nat))
    (acc : list entity) :
  foldl (fun acc item =>
           foldl (fun acc project => acc ++ [synthetic this item.1 project])
                 acc (dict_keys item.2))
        acc items
  = acc ++ flat_map (fun item => map (synthetic this item.1)
                                     (dict_keys item.2)) items.
Proof.
  revert acc. induction items as [|item items IH]; intros acc; simpl.
  - by rewrite app_nil_r.
  - rewrite IH, append_projects. by rewrite <- app_assoc.
Qed.

(** What [list_role_assignments] computes. *)
Lemma list_role_assignments_run f w :
  list_role_assignments f w =
    (match (sql_list_role_assignments f (db w)).1 with
     | Return role_assignments =>
         Return (role_assignments ++ overlay_assignments (self w))
     | Raise e => Raise e
     end,
     World (self w) (sql_list_role_assignments f (db w)).2 (log w)).
Proof.
  unfold list_role_assignments, bind, super, gets, ret.
  destruct (sql_list_role_assignments f (db w)) as [[l|e] d]; simpl; [|done].
  by rewrite append_users.
Qed.
End reads.

(** ** The write methods *)

Section writes.
Context {DB value : Type} `{!SqlAssignment DB value}.
Implicit Types (w : world DB).

(** A forwarded call logs one line, then is the superclass's call. *)
Lemma forwarded_run (m : M DB value) w :
  (forwarding ;;; super m) w =
    ((m (db w)).1,
     World (self w) (m (db w)).2
           (log w ++ [Debug "Forwarding request to the SQL assignment driver"])).
Proof. reflexivity. Qed.

Lemma invoke_self (c : call) w : self (invoke c w) = self w.
Proof.
  destruct c; simpl;
    rewrite ?list_grant_role_ids_run, ?check_grant_role_id_run,
      ?list_role_assignments_run; reflexivity.
Qed.

Lemma invoke_all_self (cs : list call) w : self (invoke_all cs w) = self w.
Proof.
  unfold invoke_all. revert w.
  induction cs as [|c cs IH]; intros w; simpl; [done|].
  by rewrite IH, invoke_self.
Qed.
End writes.

(** ** The claims on the methods *)

Section method_claims.
Context {DB value : Type} `{!SqlAssignment DB value}.
Implicit Types (w : world DB) (a : Grant.args) (f : Filter.args).

(** C1 (as amended): [check_grant_role_id] raises
    [RoleAssignmentNotFound] if and only if the SQL driver's check raises
    it for the same arguments and it is not the case that the queried role
    is the default role and the user and project are in the overlay; an
    exception of any other class raised by the SQL check propagates
    unchanged; in every other case it returns [None]. *)
Theorem check_grant_role_id_outcome role a w :
  (raises RoleAssignmentNotFound (check_grant_role_id role a w).1 ↔
     raises RoleAssignmentNotFound (sql_check_grant_role_id role a (db w)).1 ∧
     ¬ (role = role_id (self w) ∧
        in_overlay (self w) (Grant.user_id a) (Grant.project_id a))) ∧
  (∀ e, (sql_check_grant_role_id role a (db w)).1 = Raise e →
        class e ≠ RoleAssignmentNotFound →
        (check_grant_role_id role a w).1 = Raise e) ∧
  (¬ (raises RoleAssignmentNotFound (sql_check_grant_role_id role a (db w)).1 ∧
      ¬ (role = role_id (self w) ∧
         in_overlay (self w) (Grant.user_id a) (Grant.project_id a))) →
   (∀ e, (sql_check_grant_role_id role a (db w)).1 = Raise e →
         class e = RoleAssignmentNotFound) →
   (check_grant_role_id role a w).1 = Return tt).
Proof.
  rewrite check_grant_role_id_run; simpl.
  destruct (sql_check_grant_role_id role a (db w)).1 as [[]|e]; simpl.
  - split_and!; [tauto|done|done].
  - case_decide as Hd; simpl.
    + split_and!; [tauto| |done]. intros e' [= <-] Hc. tauto.
    + split_and!.
      * split; [|tauto]. intros Hc. split; [done|]. tauto.
      * by intros e' [= <-] _.
      * intros Hnot Hclass. specialize (Hclass e eq_refl). tauto.
Qed.

(** C2: [list_grant_role_ids] returns the list of the SQL driver for the
    same arguments, with the default role id appended once at the end when
    the user is a key of the map and the project is one of that user's
    projects, and unchanged otherwise; an exception of the SQL driver
    propagates, and the store is left as the SQL driver leaves it. *)
Theorem list_grant_role_ids_appends_default a w :
  (list_grant_role_ids a w).1 =
    match (sql_list_grant_role_ids a (db w)).1 with
    | Return role_ids =>
        Return (if decide (in_overlay (self w) (Grant.user_id a)
                                      (Grant.project_id a))
                then role_ids ++ [role_id (self w)]
                else role_ids)
    | Raise e => Raise e
    end
  ∧ db (list_grant_role_ids a w).2 = (sql_list_grant_role_ids a (db w)).2.
Proof.
  rewrite list_grant_role_ids_run; simpl. split; [|done].
  destruct (sql_list_grant_role_ids a (db w)).1; [|done].
  case_decide; [done | by rewrite app_nil_r].
Qed.

(** C4: each of the nine write methods returns (or raises) exactly what
    the SQL driver's method does for the same arguments, and leaves the
    store as that method leaves it. *)
Theorem writes_are_forwarded w :
  (∀ user tenant role,
     (add_role_to_user_and_project user tenant role w).1
       = (sql_add_role_to_user_and_project user tenant role (db w)).1 ∧
     db (add_role_to_user_and_project user tenant role w).2
       = (sql_add_role_to_user_and_project user tenant role (db w)).2) ∧
  (∀ user tenant role,
     (remove_role_from_user_and_project user tenant role w).1
       = (sql_remove_role_from_user_and_project user tenant role (db w)).1 ∧
     db (remove_role_from_user_and_project user tenant role w).2
       = (sql_remove_role_from_user_and_project user tenant role (db w)).2) ∧
  (∀ role a,
     (create_grant role a w).1 = (sql_create_grant role a (db w)).1 ∧
     db (create_grant role a w).2 = (sql_create_grant role a (db w)).2) ∧
  (∀ role a,
     (delete_grant role a w).1 = (sql_delete_grant role a (db w)).1 ∧
     db (delete_grant role a w).2 = (sql_delete_grant role a (db w)).2) ∧
  (∀ project,
     (delete_project_assignments project w).1
       = (sql_delete_project_assignments project (db w)).1 ∧
     db (delete_project_assignments project w).2
       = (sql_delete_project_assignments project (db w)).2) ∧
  (∀ role,
     (delete_role_assignments role w).1
       = (sql_delete_role_assignments role (db w)).1 ∧
     db (delete_role_assignments role w).2
       = (sql_delete_role_assignments role (db w)).2) ∧
  (∀ user,
     (delete_user_assignments user w).1
       = (sql_delete_user_assignments user (db w)).1 ∧
     db (delete_user_assignments user w).2
       = (sql_delete_user_assignments user (db w)).2) ∧
  (∀ group,
     (delete_group_assignments group w).1
       = (sql_delete_group_assignments group (db w)).1 ∧
     db (delete_group_assignments group w).2
       = (sql_delete_group_assignments group (db w)).2) ∧
  (∀ domain,
     (delete_domain_assignments domain w).1
       = (sql_delete_domain_assignments domain (db w)).1 ∧
     db (delete_domain_assignments domain w).2
       = (sql_delete_domain_assignments domain (db w)).2).
Proof.
  unfold add_role_to_user_and_project, remove_role_from_user_and_project,
    create_grant, delete_grant, delete_project_assignments,
    delete_role_assignments, delete_user_assignments,
    delete_group_assignments, delete_domain_assignments.
  repeat split; intros; by rewrite forwarded_run.
Qed.

(** C5: no sequence of operations, reads, writes or deletes, changes the
    user-project map or the default role id of the object. *)
Theorem overlay_is_static (cs : list call) w :
  userprojectmap (self (invoke_all cs w)) = userprojectmap (self w) ∧
  role_id (self (invoke_all cs w)) = role_id (self w).
Proof.
  by rewrite invoke_all_self.
Qed.
End method_claims.

(** ** Membership in the overlay records *)

Section overlay_records.
Implicit Types (this : Assignment) (u p : string).

Lemma synthetic_inj this u p u' p' :
  synthetic this u p = synthetic this u' p' → u = u' ∧ p = p'.
Proof. unfold synthetic. intros [= -> ->]. done. Qed.

Lemma dict_get_items {K V} `{EqDecision K} (d : dict K V) k v :
  dict_get d k = Some v → (k, v) ∈ dict_items d.
Proof.
  unfold dict_items. induction d as [|[k' v'] d IH]; simpl; [done|].
  destruct (decide (k = k')) as [->|Hne].
  - intros [= ->]. apply elem_of_cons. by left.
  - intros Hd. apply elem_of_cons. right. by apply IH.
Qed.

Lemma items_dict_get {K V} `{EqDecision K} (d : dict K V) k v :
  NoDup (dict_keys d) → (k, v) ∈ dict_items d → dict_get d k = Some v.
Proof.
  unfold dict_items, dict_keys.
  induction d as [|[k' v'] d IH]; simpl; intros Hnd Hin.
  - by apply elem_of_nil in Hin.
  - apply NoDup_cons in Hnd as [Hk' Hnd].
    apply elem_of_cons in Hin as [[= -> ->]|Hin].
    + by rewrite decide_True.
    + rewrite decide_False; [by apply IH|].
      intros ->. apply Hk'. apply list_elem_of_fmap. by exists (k', v).
Qed.

Lemma overlay_assignments_elem this r :
  r ∈ overlay_assignments this ↔
  ∃ u projects p,
    (u, projects) ∈ dict_items (userprojectmap this) ∧
    p ∈ dict_keys projects ∧ r = synthetic this u p.
Proof.
  unfold overlay_assignments. rewrite list_elem_of_In, in_flat_map. split.
  - intros ([u projects] & Hitem & Hr); simpl in *.
    apply list_elem_of_In, list_elem_of_fmap in Hr as (p & -> & Hp).
    exists u, projects, p. by rewrite list_elem_of_In.
  - intros (u & projects & p & Hitem & Hp & ->).
    exists (u, projects); simpl. rewrite <- !list_elem_of_In.
    split; [done|]. apply list_elem_of_fmap. eauto.
Qed.

(** Every pair of the overlay has its record. *)
Lemma in_overlay_record this u p :
  in_overlay this (Some u) (Some p) →
  synthetic this u p ∈ overlay_assignments this.
Proof.
  unfold in_overlay. destruct (dict_get _ u) as [projects|] eqn:Hu; [|done].
  intros Hp. apply overlay_assignments_elem.
  exists u, projects, p. eauto using dict_get_items.
Qed.
End overlay_records.

Section more_method_claims.
Context {DB value : Type} `{!SqlAssignment DB value}.
Implicit Types (w : world DB) (a : Grant.args) (f : Filter.args).

(** C9: the records appended by [list_role_assignments] do not depend on
    the filters: whatever [role_id], [user_id], [group_ids], [domain_id],
    [project_ids] and [inherited_to_projects] are given, the result is the
    SQL driver's list followed by the records of all pairs of the map, so
    the record of every pair is in it. *)
Theorem list_role_assignments_ignores_filters f w rows u p :
  (sql_list_role_assignments f (db w)).1 = Return rows →
  in_overlay (self w) (Some u) (Some p) →
  (list_role_assignments f w).1
    = Return (rows ++ overlay_assignments (self w)) ∧
  synthetic (self w) u p ∈ overlay_assignments (self w).
Proof.
  intros Hsql Hov. rewrite list_role_assignments_run; simpl. rewrite Hsql.
  split; [done | by apply in_overlay_record].
Qed.

(** C10: [list_grant_role_ids] does not deduplicate: for a user and a
    project of the overlay, when the SQL driver's list already holds the
    default role id, the returned list holds it at least twice. *)
Theorem list_grant_role_ids_keeps_duplicates a w role_ids :
  in_overlay (self w) (Grant.user_id a) (Grant.project_id a) →
  (sql_list_grant_role_ids a (db w)).1 = Return role_ids →
  role_id (self w) ∈ role_ids →
  ∃ returned,
    (list_grant_role_ids a w).1 = Return returned ∧
    (2 ≤ length (filter (λ r, r = role_id (self w)) returned))%nat.
Proof.
  intros Hov Hsql Hin. rewrite list_grant_role_ids_run; simpl. rewrite Hsql.
  rewrite decide_True by done. eexists; split; [done|].
  rewrite filter_app, length_app.
  rewrite (filter_cons_True _ (role_id (self w))) by done; simpl.
  assert (0 < length (filter (λ r, r = role_id (self w)) role_ids))%nat;
    [|lia].
  apply list_elem_of_split in Hin as (l1 & l2 & ->).
  rewrite filter_app, filter_cons_True, length_app by done. simpl. lia.
Qed.
End more_method_claims.

(** ** Construction only writes to the log *)

Section logs_only.
Implicit Types (lg out : list log_entry).

Lemma logs_only_ret {A} (a : A) : logs_only (ret a).
Proof. exists (Return a), []. intros lg. unfold ret. by rewrite app_nil_r. Qed.

Lemma logs_only_lift {A} (r : result A) : logs_only (lift r).
Proof. exists r, []. intros lg. unfold lift. by rewrite app_nil_r. Qed.

Lemma logs_only_raise {A} (e : exn) : logs_only (raise (A := A) e).
Proof. exists (Raise e), []. intros lg. unfold raise. by rewrite app_nil_r. Qed.

Lemma logs_only_warning msg : logs_only (LOG_warning msg).
Proof. by exists (Return tt), [Warning msg]. Qed.

Lemma logs_only_bind {A B} (m : M _ A) (k : A → M _ B) :
  logs_only m → (∀ a, logs_only (k a)) → logs_only (bind m k).
Proof.
  intros (r & out & Hm) Hk. destruct r as [a|e].
  - destruct (Hk a) as (r' & out' & Hka). exists r', (out ++ out').
    intros lg. unfold bind. by rewrite Hm, Hka, app_assoc.
  - exists (Raise e), out. intros lg. unfold bind. by rewrite Hm.
Qed.

Lemma logs_only_try_except {A} (body : M _ A) cls handler :
  logs_only body → (∀ e, logs_only (handler e)) →
  logs_only (try_except body cls handler).
Proof.
  intros (r & out & Hm) Hh. destruct r as [a|e].
  - exists (Return a), out. intros lg. unfold try_except. by rewrite Hm.
  - destruct (decide (class e = cls)) as [Hc|Hc].
    + destruct (Hh e) as (r' & out' & Hhe). exists r', (out ++ out').
      intros lg. unfold try_except.
      by rewrite Hm, decide_True, Hhe, app_assoc.
    + exists (Raise e), out. intros lg. unfold try_except.
      by rewrite Hm, decide_False.
Qed.

Lemma logs_only_for_each {A B} (l : list A) (body : A → B → M _ B) acc :
  (∀ x b, logs_only (body x b)) → logs_only (for_each l body acc).
Proof.
  intros Hbody. revert acc. induction l as [|x l IH]; intros acc; simpl.
  - apply logs_only_ret.
  - apply logs_only_bind; auto.
Qed.

(** The outcome of such a computation does not depend on the log. *)
Lemma logs_only_outcome {A} (m : M _ A) lg lg' :
  logs_only m → (m lg).1 = (m lg').1.
Proof. intros (r & out & Hm). by rewrite !Hm. Qed.
End logs_only.

Create HintDb logs.
#[local] Hint Resolve logs_only_ret logs_only_lift logs_only_warning : logs.
#[local] Hint Extern 2 (logs_only (bind _ _)) =>
  apply logs_only_bind; [|intros] : logs.
#[local] Hint Extern 2 (logs_only (try_except _ _ _)) =>
  apply logs_only_try_except; [|intros] : logs.
#[local] Hint Extern 2 (logs_only (for_each _ _ _)) =>
  apply logs_only_for_each; intros : logs.
#[local] Hint Extern 3 (logs_only (match ?x with _ => _ end)) =>
  destruct x : logs.
#[local] Hint Extern 3 (logs_only (if ?x then _ else _)) =>
  destruct x : logs.

Section construction_logs.
Context (CONF : Conf) `{Managers}.

Lemma logs_only_get_role_id : logs_only (_get_role_id CONF).
Proof. unfold _get_role_id. auto 10 with logs. Qed.

Lemma logs_only_get_user_id dn did user :
  logs_only (_get_user_id dn did user).
Proof. unfold _get_user_id. auto 10 with logs. Qed.

Lemma logs_only_project_body name st : logs_only (project_body CONF name st).
Proof. unfold project_body. auto 12 with logs. Qed.

Lemma logs_only_user_body dn did item st :
  logs_only (user_body CONF dn did item st).
Proof.
  unfold user_body.
  apply logs_only_bind; [apply logs_only_get_user_id|intros [uid|]].
  - destruct (negb _); [apply logs_only_ret|].
    apply logs_only_bind; [|auto with logs].
    apply logs_only_for_each; intros. apply logs_only_project_body.
  - apply logs_only_ret.
Qed.
End construction_logs.

(** ** The loops of construction *)

Section loops.
Context (CONF : Conf) `{Managers}.

(** A loop that returns has kept, step by step, any invariant of its
    body. *)
Lemma for_each_invariant {S A B} (P : list A → B → Prop)
    (body : A → B → M S B) l acc s r s' :
  P [] acc →
  (∀ seen x b s b' s',
     P seen b → body x b s = (Return b', s') → P (seen ++ [x]) b') →
  for_each l body acc s = (Return r, s') → P l r.
Proof.
  intros H0 Hstep.
  cut (∀ seen b s0, P seen b →
         for_each l body b s0 = (Return r, s') → P (seen ++ l) r).
  { intros Hc. apply (Hc [] acc s H0). }
  induction l as [|x l IH]; intros seen b s0 HP; simpl.
  - unfold ret. intros [= <- <-]. by rewrite app_nil_r.
  - unfold bind. destruct (body x b s0) as [[b'|e] s1] eqn:Hb; [|done].
    intros Hrest.
    replace (seen ++ x :: l) with ((seen ++ [x]) ++ l)
      by (by rewrite <- app_assoc).
    eapply IH; [|done]. eapply Hstep; eauto.
Qed.

Lemma for_each_app {S A B} (l1 l2 : list A) (body : A → B → M S B) acc s :
  for_each (l1 ++ l2) body acc s
  = (acc' <- for_each l1 body acc ;; for_each l2 body acc') s.
Proof.
  revert acc s. induction l1 as [|x l1 IH]; intros acc s; simpl; [done|].
  unfold bind. destruct (body x acc s) as [[b|e] s1]; [|done].
  rewrite IH. done.
Qed.

(** One project name, when the body returns: the name resolves, from the
    cache or from the resource driver, its id becomes [projectid] and is
    recorded. *)
Lemma project_body_cases name st lg st' lg' :
  cache_ok CONF (projectidcache st) →
  project_body CONF name st lg = (Return st', lg') →
  ∃ pid cache,
    resolves_to_project CONF name pid ∧ cache_ok CONF cache ∧
    st' = record_projectid (ProjectLoop (Some pid) cache (projectids st)).
Proof.
  intros Hcache. unfold project_body, bind.
  destruct (dict_get (projectidcache st) name) as [cached|] eqn:Hhit.
  - unfold ret. intros [= <- <-].
    exists cached, (projectidcache st). auto.
  - unfold try_except, bind, lift, ret.
    destruct (resource_get_project_by_name name _) as [project|e] eqn:Hget.
    + unfold getitem.
      destruct (dict_get project "id") as [fetched|] eqn:Hid; simpl.
      * intros [= <- <-].
        assert (resolves_to_project CONF name fetched) as Hres.
        { exists project. unfold getitem. by rewrite Hid. }
        exists fetched, (dict_setitem (projectidcache st) name fetched).
        repeat split; [done|].
        intros name' pid'. destruct (decide (name' = name)) as [->|Hne].
        -- rewrite dict_get_setitem_eq. by intros [= <-].
        -- rewrite dict_get_setitem_ne by done. apply Hcache.
      * done.
    + by destruct (decide (class e = ProjectNotFound)).
Qed.

Lemma resolves_to_project_functional name pid pid' :
  resolves_to_project CONF name pid → resolves_to_project CONF name pid' →
  pid = pid'.
Proof. intros (p & Hp & Hid) (p' & Hp' & Hid'). congruence. Qed.

Lemma truthy_Some (s : string) : truthy (Some s) = true ↔ s ≠ "".
Proof. simpl. apply bool_decide_eq_true. Qed.

Lemma record_projectid_projectid st :
  projectid (record_projectid st) = projectid st.
Proof.
  unfold record_projectid. destruct (projectid st) as [id|] eqn:Hid; [|done].
  by destruct (truthy (Some id)).
Qed.

Lemma record_projectid_cache st :
  projectidcache (record_projectid st) = projectidcache st.
Proof.
  unfold record_projectid. destruct (projectid st) as [id|]; [|done].
  by destruct (truthy (Some id)).
Qed.

Lemma record_projectid_keys st pid :
  pid ∈ dict_keys (projectids (record_projectid st)) ↔
  pid ∈ dict_keys (projectids st) ∨ (projectid st = Some pid ∧ pid ≠ "").
Proof.
  unfold record_projectid. destruct (projectid st) as [id|]; [|naive_solver].
  destruct (truthy (Some id)) eqn:Ht; simpl.
  - apply truthy_Some in Ht. rewrite dict_keys_setitem. naive_solver.
  - assert (¬ id ≠ "") by (rewrite <- truthy_Some; congruence).
    naive_solver.
Qed.

Lemma record_projectid_NoDup st :
  NoDup (dict_keys (projectids st)) →
  NoDup (dict_keys (projectids (record_projectid st))).
Proof.
  intros Hnd. unfold record_projectid.
  destruct (projectid st) as [id|]; [|done].
  destruct (truthy (Some id)); [|done]. simpl.
  by apply dict_keys_setitem_NoDup.
Qed.

Lemma project_inv_step seen name st lg st' lg' :
  project_inv CONF seen st →
  project_body CONF name st lg = (Return st', lg') →
  project_inv CONF (seen ++ [name]) st'.
Proof.
  intros [Hcache Hset Hnd Hlast] Hrun.
  apply project_body_cases in Hrun; [|done].
  destruct Hrun as (pid & cache & Hres & Hcache' & ->). split.
  - by rewrite record_projectid_cache.
  - intros pid'. rewrite record_projectid_keys; simpl. rewrite (Hset pid').
    split.
    + intros [(Hne & n & Hn & Hr)|[[= <-] Hne]].
      * split; [done|]. exists n. rewrite elem_of_app. auto.
      * split; [done|]. exists name.
        rewrite elem_of_app, list_elem_of_singleton. auto.
    + intros (Hne & n & [Hn| ->%list_elem_of_singleton]%elem_of_app & Hr).
      * left. eauto.
      * right. split; [|done]. f_equal.
        eapply resolves_to_project_functional; eauto.
  - by apply record_projectid_NoDup.
  - intros pid'. rewrite record_projectid_projectid; simpl.
    intros [= <-] Hne. apply record_projectid_keys. right. done.
Qed.

(** The loop over the project names of one user builds the set of the
    non-empty ids these names resolve to. *)
Lemma project_loop_spec names cache lg inner lg' :
  cache_ok CONF cache →
  for_each names (project_body CONF) (ProjectLoop None cache []) lg
    = (Return inner, lg') →
  project_inv CONF names inner.
Proof.
  intros Hcache Hrun.
  eapply (for_each_invariant (project_inv CONF)); [| |exact Hrun].
  - split; simpl; [done| |apply NoDup_nil_2|done].
    intros pid. split.
    + by intros ?%elem_of_nil.
    + by intros (_ & n & ?%elem_of_nil & _).
  - intros. eapply project_inv_step; eauto.
Qed.
Lemma resolves_to_user_functional this user uid uid' :
  resolves_to_user this user uid → resolves_to_user this user uid' →
  uid = uid'.
Proof. unfold resolves_to_user. congruence. Qed.

(** One item of the file: the user name is skipped, when it resolves to
    no public id or to an empty one, or its projects are resolved and
    stored under its public id. *)
Lemma user_body_cases this user names st lg st' lg' :
  cache_ok CONF st.2 →
  user_body CONF (domain_name this) (domain_id this) (user, names) st lg
    = (Return st', lg') →
  ((∀ uid, resolves_to_user this user uid → uid = "") ∧ st' = st)
  ∨ (∃ uid inner,
       resolves_to_user this user uid ∧ uid ≠ "" ∧
       project_inv CONF names inner ∧
       st' = (dict_setitem st.1 uid (projectids inner),
              projectidcache inner)).
Proof.
  intros Hcache. unfold user_body, bind. cbn [fst snd].
  destruct (_get_user_id _ _ user lg) as [[found|e] lg1] eqn:Hu; [|done].
  assert ((_get_user_id (domain_name this) (domain_id this) user []).1
          = Return found) as Hres.
  { rewrite (logs_only_outcome _ [] lg) by apply logs_only_get_user_id.
    by rewrite Hu. }
  destruct found as [uid|].
  - destruct (truthy (Some uid)) eqn:Ht; cbn [negb].
    + apply truthy_Some in Ht.
      destruct (for_each names (project_body CONF) (ProjectLoop None st.2 [])
                         lg1) as [[inner|e] lg2] eqn:Hloop; [|done].
      unfold ret. intros [= <- <-]. right. exists uid, inner.
      split; [done|]. split; [done|]. split; [|done].
      by eapply project_loop_spec.
    + unfold ret. intros [= <- <-]. left. split; [|done].
      intros uid' Hres'. unfold resolves_to_user in Hres'.
      assert (uid' = uid) as -> by congruence.
      destruct (decide (uid = "")) as [|Hne]; [done|].
      apply truthy_Some in Hne. congruence.
  - unfold ret. intros [= <- <-]. left. split; [|done].
    intros uid' Hres'. unfold resolves_to_user in Hres'. congruence.
Qed.

Lemma user_inv_step this seen user names st lg st' lg' :
  user_inv CONF this seen st →
  user_body CONF (domain_name this) (domain_id this) (user, names) st lg
    = (Return st', lg') →
  user_inv CONF this (seen ++ [(user, names)]) st'.
Proof.
  intros [Hcache Hnd Hsets Hmap] Hrun.
  apply user_body_cases in Hrun; [|done].
  destruct Hrun as [[Hskip ->]|(uid0 & inner & Hres & Hne & Hinner & ->)].
  - split; try done. intros uid. specialize (Hmap uid).
    assert (uid ≠ "" → ¬ resolves_to_user this (user, names).1 uid) as Hitem.
    { intros Huid Hr. by apply Huid, Hskip. }
    destruct (dict_get st.1 uid) as [projects|].
    + destruct Hmap as (Huid & before & u & ns & after & -> & Hu & Hafter & Hps).
      split; [done|]. exists before, u, ns, (after ++ [(user, names)]).
      rewrite <- app_assoc. split_and!; try done.
      apply Forall_app. auto.
    + destruct Hmap as [->|Hseen]; [by left|].
      destruct (decide (uid = "")) as [->|Huid]; [by left|].
      right. apply Forall_app. auto.
  - destruct Hinner as [Hcache' Hset' Hnd' _]. split; simpl.
    + done.
    + by apply dict_keys_setitem_NoDup.
    + intros uid projects. destruct (decide (uid = uid0)) as [->|Huid].
      * rewrite dict_get_setitem_eq. by intros [= <-].
      * rewrite dict_get_setitem_ne by done. apply Hsets.
    + intros uid. destruct (decide (uid = uid0)) as [->|Huid].
      * rewrite dict_get_setitem_eq. split; [done|].
        exists seen, user, names, []. split_and!; done.
      * rewrite dict_get_setitem_ne by done. specialize (Hmap uid).
        assert (¬ resolves_to_user this (user, names).1 uid) as Hitem.
        { intros Hr. apply Huid.
          eapply resolves_to_user_functional; eauto. }
        destruct (dict_get st.1 uid) as [projects|].
        -- destruct Hmap
             as (Hne' & before & u & ns & after & -> & Hu & Hafter & Hps).
           split; [done|]. exists before, u, ns, (after ++ [(user, names)]).
           rewrite <- app_assoc. split_and!; try done.
           apply Forall_app. auto.
        -- destruct Hmap as [->|Hseen]; [by left|].
           right. apply Forall_app. auto.
Qed.

(** What a construction that returns has established. *)
Lemma init_spec map_file lg this lg' :
  __init__ CONF map_file lg = (Return this, lg') →
  domain_name this = ldap_domain_name CONF ∧
  (∃ domain,
     resource_get_project_by_name (ldap_domain_name CONF) None
       = Return domain ∧
     getitem domain "id" = Return (domain_id this)) ∧
  (_get_role_id CONF lg).1 = Return (role_id this) ∧
  ∃ cache, user_inv CONF this (dict_items map_file)
                    (userprojectmap this, cache).
Proof.
  unfold __init__, bind, lift.
  destruct (resource_get_project_by_name _ None) as [domain|e] eqn:Hd;
    [|done].
  destruct (getitem domain "id") as [did|e] eqn:Hdid; [|done].
  destruct (_get_role_id CONF lg) as [[rid|e] lg1] eqn:Hrole; [|done].
  destruct (for_each _ _ _ lg1) as [[[upm cache]|e] lg2] eqn:Hloop; [|done].
  unfold ret. intros [= <- <-]; simpl.
  split_and!; [done|eauto|done|]. exists cache.
  set (this := {| domain_name := ldap_domain_name CONF; domain_id := did;
                  role_id := rid; userprojectmap := upm |}).
  eapply (for_each_invariant (user_inv CONF this)); [| |exact Hloop].
  - split; simpl; [done|apply NoDup_nil_2|done|].
    intros uid. right. apply Forall_nil_2.
  - intros seen [user names] st s st' s' Hinv Hbody.
    eapply user_inv_step; eauto.
Qed.
End loops.

(** ** The constructed object *)

Section constructed.
Context (CONF : Conf) `{Managers}.


Lemma get_role_id_spec lg rid :
  (_get_role_id CONF lg).1 = Return rid →
  ∃ role_name others role roles,
    default_roles CONF = role_name :: others ∧
    role_list_roles (add_filter "name" role_name Hints_new)
      = Return (role :: roles) ∧
    getitem role "id" = Return rid.
Proof.
  unfold _get_role_id, bind, lift, index.
  destruct (default_roles CONF) as [|role_name others]; simpl; [done|].
  destruct (role_list_roles _) as [[|role roles]|e] eqn:Hroles; simpl;
    [done| |done].
  intros Hid. exists role_name, others, role, roles. done.
Qed.

(** The maps of a constructed object have no repeated key. *)
Lemma init_NoDup map_file lg this lg' :
  __init__ CONF map_file lg = (Return this, lg') →
  NoDup (dict_keys (userprojectmap this)) ∧
  ∀ uid projects, (uid, projects) ∈ dict_items (userprojectmap this) →
                  NoDup (dict_keys projects).
Proof.
  intros (_ & _ & _ & cache & [_ Hnd Hsets _])%init_spec. simpl in *.
  split; [done|]. intros uid projects Hin.
  eapply Hsets, items_dict_get; eauto.
Qed.

Lemma overlay_assignments_NoDup this :
  NoDup (dict_keys (userprojectmap this)) →
  (∀ uid projects, (uid, projects) ∈ dict_items (userprojectmap this) →
                   NoDup (dict_keys projects)) →
  NoDup (overlay_assignments this).
Proof.
  unfold overlay_assignments, dict_items, dict_keys at 1.
  induction (userprojectmap this) as [|[u ps] d IH]; simpl; intros Hnd Hsets.
  - apply NoDup_nil_2.
  - apply NoDup_cons in Hnd as [Hu Hnd]. apply NoDup_app. split_and!.
    + apply NoDup_fmap_2.
      * intros p p' Heq. by apply synthetic_inj in Heq as [_ ?].
      * apply (Hsets u). apply elem_of_cons. by left.
    + intros r (p & -> & Hp)%list_elem_of_fmap Hin.
      apply list_elem_of_In, in_flat_map in Hin as ([u' ps'] & Hitem & Hr).
      simpl in Hr. apply list_elem_of_In, list_elem_of_fmap in Hr
        as (p' & Heq & _).
      apply synthetic_inj in Heq as [-> _]. apply Hu.
      apply list_elem_of_fmap. exists (u', ps'). by rewrite list_elem_of_In.
    + apply IH; [done|]. intros uid projects Hin.
      apply (Hsets uid). apply elem_of_cons. by right.
Qed.

Lemma overlay_assignments_spec this r :
  NoDup (dict_keys (userprojectmap this)) →
  r ∈ overlay_assignments this ↔
  ∃ u p, in_overlay this (Some u) (Some p) ∧ r = synthetic this u p.
Proof.
  intros Hnd. rewrite overlay_assignments_elem. unfold in_overlay. split.
  - intros (u & projects & p & Hitem & Hp & ->). exists u, p.
    by rewrite (items_dict_get _ u projects).
  - intros (u & p & Hov & ->).
    destruct (dict_get _ u) as [projects|] eqn:Hu; [|done].
    exists u, projects, p. eauto using dict_get_items.
Qed.

(** Dropping from a loop an item whose body changes nothing but the log
    does not change what the loop computes. *)
Lemma for_each_skip {A B} (body : A → B → M (list log_entry) B)
    before item after acc lg :
  (∀ x b, logs_only (body x b)) →
  (∀ b lg0, (body item b lg0).1 = Return b) →
  (for_each (before ++ item :: after) body acc lg).1
  = (for_each (before ++ after) body acc lg).1.
Proof.
  intros Hlogs Hskip. rewrite !for_each_app. unfold bind.
  destruct (for_each before body acc lg) as [[b|e] lg1]; [|done].
  simpl. unfold bind. specialize (Hskip b lg1).
  destruct (body item b lg1) as [r lg2]. simpl in Hskip. subst r.
  apply logs_only_outcome, logs_only_for_each, Hlogs.
Qed.

Lemma get_user_id_not_found dn did user e lg :
  identity_get_user_by_name user dn = Raise e →
  class e = UserNotFound →
  _get_user_id dn did user lg
  = (Return None, lg ++ [Warning ("Could not find user: " +:+ user)]).
Proof.
  intros Hget Hc. unfold _get_user_id, bind, try_except, lift.
  rewrite Hget. by rewrite decide_True.
Qed.
End constructed.

(** ** The claims on construction *)

Section construction_claims.
Context (CONF : Conf) `{Managers}.
Context {DB value : Type} `{!SqlAssignment DB value}.


(** C7: one fixed role is granted.  The role id of a constructed object is
    the id of the first role the role driver lists for the first
    configured default role name, and after any operations every entry
    that [list_grant_role_ids] or [list_role_assignments] adds to the SQL
    driver's result carries that id, and [check_grant_role_id] accepts a
    grant missing from the SQL store only for that id. *)
Theorem default_role_is_fixed map_file lg this lg' :
  __init__ CONF map_file lg = (Return this, lg') →
  (∃ role_name others role roles,
     default_roles CONF = role_name :: others ∧
     role_list_roles (add_filter "name" role_name Hints_new)
       = Return (role :: roles) ∧
     getitem role "id" = Return (role_id this)) ∧
  ∀ (w : world DB) (cs : list call),
    self w = this →
    (∀ a, ∃ added,
       (list_grant_role_ids a (invoke_all cs w)).1 =
         match (sql_list_grant_role_ids a (db (invoke_all cs w))).1 with
         | Return role_ids => Return (role_ids ++ added)
         | Raise e => Raise e
         end ∧
       Forall (λ r, r = role_id this) added) ∧
    (∀ f, ∃ added,
       (list_role_assignments f (invoke_all cs w)).1 =
         match (sql_list_role_assignments f (db (invoke_all cs w))).1 with
         | Return rows => Return (rows ++ added)
         | Raise e => Raise e
         end ∧
       Forall (λ r, getitem r "role_id" = Return (role_id this)) added) ∧
    (∀ role a,
       raises RoleAssignmentNotFound
         (sql_check_grant_role_id role a (db (invoke_all cs w))).1 →
       (check_grant_role_id role a (invoke_all cs w)).1 = Return tt →
       role = role_id this).
Proof.
  intros Hinit. split.
  { apply init_spec in Hinit as (_ & _ & Hrole & _).
    by eapply get_role_id_spec. }
  intros w cs <-. pose proof (invoke_all_self cs w) as Hself.
  split_and!.
  - intros a. rewrite list_grant_role_ids_run, Hself; simpl.
    eexists. split; [reflexivity|]. case_decide; repeat constructor.
  - intros f. rewrite list_role_assignments_run, Hself; simpl.
    eexists. split; [reflexivity|].
    apply Forall_forall. intros r (u & ps & p & _ & _ & ->)%overlay_assignments_elem.
    reflexivity.
  - intros role a. rewrite check_grant_role_id_run, Hself; simpl.
    destruct (sql_check_grant_role_id role a _).1 as [[]|e]; simpl; [done|].
    intros _. case_decide as Hd; [tauto | done].
Qed.

(** C8: a user name of the file whose lookup raises [UserNotFound] is
    skipped: its turn in the loop leaves the map and the cache as they
    were and only logs a warning, the name resolves to no public id, and
    construction ends as it does on the file without that name, so that
    the object and all its read operations are the same. *)
Theorem unknown_user_is_skipped before user names after lg e :
  identity_get_user_by_name user (ldap_domain_name CONF) = Raise e →
  class e = UserNotFound →
  (∀ did st lg0,
     user_body CONF (ldap_domain_name CONF) did (user, names) st lg0
     = (Return st, lg0 ++ [Warning ("Could not find user: " +:+ user)])) ∧
  (__init__ CONF (before ++ (user, names) :: after) lg).1
    = (__init__ CONF (before ++ after) lg).1 ∧
  (∀ this lg' uid,
     __init__ CONF (before ++ (user, names) :: after) lg
       = (Return this, lg') →
     ¬ resolves_to_user this user uid).
Proof.
  intros Hget Hc.
  assert (∀ did st lg0,
     user_body CONF (ldap_domain_name CONF) did (user, names) st lg0
     = (Return st, lg0 ++ [Warning ("Could not find user: " +:+ user)]))
    as Hskip.
  { intros did st lg0. unfold user_body, bind; simpl.
    by rewrite (get_user_id_not_found _ _ _ e). }
  split_and!; [done| |].
  - unfold __init__, bind.
    destruct (lift (resource_get_project_by_name _ None) lg)
      as [[domain|e1] lg1]; [|done].
    destruct (lift (getitem domain "id") lg1) as [[did|e2] lg2]; [|done].
    destruct (_get_role_id CONF lg2) as [[rid|e3] lg3]; [|done].
    unfold dict_items.
    pose proof (for_each_skip
      (user_body CONF (ldap_domain_name CONF) did)
      before (user, names) after ([], []) lg3) as Heq.
    destruct (for_each (before ++ (user, names) :: after) _ _ lg3)
      as [r1 s1], (for_each (before ++ after) _ _ lg3) as [r2 s2].
    simpl in Heq. rewrite Heq.
    + by destruct r2.
    + intros. apply logs_only_user_body.
    + intros. by rewrite Hskip.
  - intros this lg' uid Hinit Hres.
    apply init_spec in Hinit as (Hdn & _). unfold resolves_to_user in Hres.
    rewrite Hdn, (get_user_id_not_found _ _ _ e) in Hres by done.
    discriminate.
Qed.

(** C3: on a constructed object, [list_role_assignments] returns the SQL
    driver's result for the same arguments, every entry kept, followed by
    one record with the default role id, the user and the project for each
    pair of a key of the map and a project of that key, and no other; an
    exception of the SQL driver propagates. *)
Theorem list_role_assignments_appends_overlay map_file lg this lg'
    (w : world DB) f :
  __init__ CONF map_file lg = (Return this, lg') →
  self w = this →
  (list_role_assignments f w).1 =
    match (sql_list_role_assignments f (db w)).1 with
    | Return rows => Return (rows ++ overlay_assignments this)
    | Raise e => Raise e
    end ∧
  NoDup (overlay_assignments this) ∧
  ∀ r, r ∈ overlay_assignments this ↔
       ∃ u p, in_overlay this (Some u) (Some p) ∧
              r = [("role_id", role_id this); ("user_id", u);
                   ("project_id", p)].
Proof.
  intros [Hnd Hsets]%init_NoDup <-. split_and!.
  - by rewrite list_role_assignments_run.
  - by apply overlay_assignments_NoDup.
  - intros r. by apply overlay_assignments_spec.
Qed.
End construction_claims.

(** ** The claims on the small host *)

Section on_the_small_host.
Import Demo.

(** C1, counterexample: when the database is unreachable the SQL check
    raises another exception; [check_grant_role_id] then neither raises
    [RoleAssignmentNotFound] nor returns [None]. *)
Lemma check_grant_role_id_database_down :
  (check_grant_role_id "r-member" (grant "u-alice" "p-beta") down).1
    = Raise (Exn (OtherException "DBConnectionError") "db down") ∧
  ¬ check_grant_role_id_as_stated "r-member" (grant "u-alice" "p-beta") down.
Proof.
  split; [reflexivity|]. intros [_ Hnone].
  assert ((check_grant_role_id "r-member" (grant "u-alice" "p-beta") down).1
          = Return tt) as Hret; [|discriminate Hret].
  apply Hnone. vm_compute. intros [=].
Qed.

(** C3 on the small host. *)
Lemma list_role_assignments_appends_overlay_witness :
  (list_role_assignments admin_of_alpha up).1 =
    match (sql_list_role_assignments admin_of_alpha (db up)).1 with
    | Return rows => Return (rows ++ overlay_assignments driver)
    | Raise e => Raise e
    end ∧
  NoDup (overlay_assignments driver) ∧
  ∀ r, r ∈ overlay_assignments driver ↔
       ∃ u p, in_overlay driver (Some u) (Some p) ∧
              r = [("role_id", role_id driver); ("user_id", u);
                   ("project_id", p)].
Proof.
  apply (list_role_assignments_appends_overlay CONF map_file [] driver
           init_log up admin_of_alpha).
  - vm_compute. reflexivity.
  - reflexivity.
Defined.


(** C7 on the small host: two roles are named "Member", the first one is
    granted. *)
Lemma default_role_is_fixed_witness :
  (∃ role_name others role roles,
     default_roles CONF = role_name :: others ∧
     role_list_roles (add_filter "name" role_name Hints_new)
       = Return (role :: roles) ∧
     getitem role "id" = Return (role_id driver)) ∧
  ∀ (w : world store) (cs : list call),
    self w = driver →
    (∀ a, ∃ added,
       (list_grant_role_ids a (invoke_all cs w)).1 =
         match (sql_list_grant_role_ids a (db (invoke_all cs w))).1 with
         | Return role_ids => Return (role_ids ++ added)
         | Raise e => Raise e
         end ∧
       Forall (λ r, r = role_id driver) added) ∧
    (∀ f, ∃ added,
       (list_role_assignments f (invoke_all cs w)).1 =
         match (sql_list_role_assignments f (db (invoke_all cs w))).1 with
         | Return rows => Return (rows ++ added)
         | Raise e => Raise e
         end ∧
       Forall (λ r, getitem r "role_id" = Return (role_id driver)) added) ∧
    (∀ role a,
       raises RoleAssignmentNotFound
         (sql_check_grant_role_id role a (db (invoke_all cs w))).1 →
       (check_grant_role_id role a (invoke_all cs w)).1 = Return tt →
       role = role_id driver).
Proof.
  apply (default_role_is_fixed CONF map_file [] driver init_log).
  vm_compute. reflexivity.
Defined.

(** C8 on the small host: "carol" is not in the directory. *)
Lemma unknown_user_is_skipped_witness :
  (∀ did st lg0,
     user_body CONF (ldap_domain_name CONF) did ("carol", ["alpha"]) st lg0
     = (Return st, lg0 ++ [Warning ("Could not find user: " +:+ "carol")])) ∧
  (__init__ CONF
     ([("alice", ["alpha"; "beta"; "alpha"])] ++
      ("carol", ["alpha"]) :: [("bob", ["beta"])]) []).1
    = (__init__ CONF
         ([("alice", ["alpha"; "beta"; "alpha"])] ++ [("bob", ["beta"])])
         []).1 ∧
  (∀ this lg' uid,
     __init__ CONF
       ([("alice", ["alpha"; "beta"; "alpha"])] ++
        ("carol", ["alpha"]) :: [("bob", ["beta"])]) []
       = (Return this, lg') →
     ¬ resolves_to_user this "carol" uid).
Proof.
  apply (unknown_user_is_skipped CONF
           [("alice", ["alpha"; "beta"; "alpha"])] "carol" ["alpha"]
           [("bob", ["beta"])] []
           (Exn UserNotFound ("Could not find: " +:+ "carol"))).
  - vm_compute. reflexivity.
  - reflexivity.
Defined.

(** C9 on the small host: the filters ask for the role "r-admin" of
    "u-alice" on "p-alpha"; the record of "u-bob" on "p-beta" is appended
    all the same. *)
Lemma list_role_assignments_ignores_filters_witness :
  (list_role_assignments admin_of_alpha up).1
    = Return ([as_entity (Row "r-admin" "u-alice" "p-alpha")] ++
              overlay_assignments (self up)) ∧
  synthetic (self up) "u-bob" "p-beta" ∈ overlay_assignments (self up).
Proof.
  apply (list_role_assignments_ignores_filters admin_of_alpha up
           [as_entity (Row "r-admin" "u-alice" "p-alpha")] "u-bob" "p-beta").
  - vm_compute. reflexivity.
  - vm_compute. apply list_elem_of_here.
Defined.

(** C10 on the small host: "u-bob" has the default role on "p-beta" in
    the SQL store too. *)
Lemma list_grant_role_ids_keeps_duplicates_witness :
  ∃ returned,
    (list_grant_role_ids (grant "u-bob" "p-beta") up).1 = Return returned ∧
    (2 ≤ length (filter (λ r, r = role_id (self up)) returned))%nat.
Proof.
  apply (list_grant_role_ids_keeps_duplicates (grant "u-bob" "p-beta") up
           ["r-member"]).
  - vm_compute. apply list_elem_of_here.
  - vm_compute. reflexivity.
  - apply list_elem_of_here.
Defined.
End on_the_small_host.

(** * Further properties of the methods *)

Section sequences_of_calls.
Context {DB value : Type} `{!SqlAssignment DB value}.
Implicit Types (w : world DB) (a : Grant.args) (f : Filter.args).

Lemma invoke_db (c : call) w : db (invoke c w) = sql_invoke c (db w).
Proof.
  destruct c; simpl;
    rewrite ?list_grant_role_ids_run, ?check_grant_role_id_run,
      ?list_role_assignments_run; reflexivity.
Qed.

Lemma invoke_log (c : call) w :
  log (invoke c w) =
    log w ++ if is_write c
             then [Debug "Forwarding request to the SQL assignment driver"]
             else [].
Proof.
  destruct c; simpl;
    rewrite ?list_grant_role_ids_run, ?check_grant_role_id_run,
      ?list_role_assignments_run; simpl; by rewrite ?app_nil_r.
Qed.

(** X13: Whatever is called on the driver, reads included, and whether the calls
    return or raise, the SQL store goes through the states it goes through
    when the same calls are made on the SQL driver itself. *)
Theorem store_follows_sql (cs : list call) w :
  db (invoke_all cs w) = sql_invoke_all cs (db w).
Proof.
  unfold invoke_all, sql_invoke_all. revert w.
  induction cs as [|c cs IH]; intros w; simpl; [done|].
  by rewrite IH, invoke_db.
Qed.

(** X14: The reads log nothing; each write logs one debug line, before it
    forwards and so also when the SQL driver raises. *)
Theorem log_counts_writes (cs : list call) w :
  log (invoke_all cs w) =
    log w ++ replicate (length (filter (λ c, is_write c = true) cs))
               (Debug "Forwarding request to the SQL assignment driver").
Proof.
  unfold invoke_all. revert w.
  induction cs as [|c cs IH]; intros w; simpl; [by rewrite app_nil_r|].
  rewrite IH, invoke_log. destruct (is_write c) eqn:Hc.
  - rewrite filter_cons_True by done. simpl. by rewrite <- app_assoc.
  - rewrite filter_cons_False by congruence. by rewrite app_nil_r.
Qed.

(** X9: No call revokes a grant of the overlay: after any calls, deletes
    included, a user and project of the map still get the default role from
    [list_grant_role_ids], and [check_grant_role_id] for the default role
    returns [None] unless the SQL check raised an exception of another class
    than [RoleAssignmentNotFound]. *)
Theorem overlay_survives_any_calls (cs : list call) w a role_ids :
  in_overlay (self w) (Grant.user_id a) (Grant.project_id a) →
  (sql_list_grant_role_ids a (db (invoke_all cs w))).1 = Return role_ids →
  (list_grant_role_ids a (invoke_all cs w)).1
    = Return (role_ids ++ [role_id (self w)]) ∧
  ((check_grant_role_id (role_id (self w)) a (invoke_all cs w)).1 = Return tt ∨
   ∃ e, (check_grant_role_id (role_id (self w)) a (invoke_all cs w)).1
          = Raise e ∧
        class e ≠ RoleAssignmentNotFound).
Proof.
  intros Hov Hsql.
  rewrite list_grant_role_ids_run, check_grant_role_id_run; simpl.
  rewrite invoke_all_self, Hsql.
  rewrite decide_True by done. split; [done|].
  destruct (sql_check_grant_role_id _ a _).1 as [[]|e]; [by left|].
  case_decide as Hd; [by left|]. right. exists e. split; [done|]. tauto.
Qed.
End sequences_of_calls.

Section reads_together.
Context {DB value : Type} `{!SqlAssignment DB value}.
Implicit Types (w : world DB) (a : Grant.args) (f : Filter.args).

(** X10: The two grant reads agree as far as the SQL driver's do: when the SQL
    check answers (it returns or raises [RoleAssignmentNotFound]) and
    returns exactly for the roles of the SQL list, [check_grant_role_id]
    returns exactly for the roles [list_grant_role_ids] returns. *)
Theorem check_agrees_with_list role a w role_ids :
  (sql_list_grant_role_ids a (db w)).1 = Return role_ids →
  ((sql_check_grant_role_id role a (db w)).1 = Return tt ∨
   raises RoleAssignmentNotFound (sql_check_grant_role_id role a (db w)).1) →
  ((sql_check_grant_role_id role a (db w)).1 = Return tt ↔ role ∈ role_ids) →
  ∃ returned,
    (list_grant_role_ids a w).1 = Return returned ∧
    ((check_grant_role_id role a w).1 = Return tt ↔ role ∈ returned).
Proof.
  intros Hlist Hanswers Hagree.
  rewrite list_grant_role_ids_run, check_grant_role_id_run; simpl.
  rewrite Hlist. eexists. split; [done|].
  rewrite elem_of_app, <- Hagree.
  destruct (sql_check_grant_role_id role a (db w)).1 as [[]|e]; simpl in *.
  - tauto.
  - destruct Hanswers as [Hbad|Hc]; [discriminate|].
    destruct (decide (in_overlay (self w) (Grant.user_id a)
                                 (Grant.project_id a))) as [Hov|Hov].
    + case_decide as Hd; split.
      * intros _. right. apply list_elem_of_singleton. tauto.
      * done.
      * discriminate.
      * intros [Hb|Hin]; [discriminate|].
        apply list_elem_of_singleton in Hin. tauto.
    + rewrite decide_False by tauto. split; [discriminate|].
      intros [Hb|Hin]; [discriminate|]. by apply elem_of_nil in Hin.
Qed.

(** X12: A query without a user (a group's grants) or without a project (a
    domain's grants) is the SQL driver's: nothing is appended and no missing
    grant is accepted. *)
Theorem queries_without_user_or_project role a w :
  Grant.user_id a = None ∨ Grant.project_id a = None →
  (list_grant_role_ids a w).1 = (sql_list_grant_role_ids a (db w)).1 ∧
  (check_grant_role_id role a w).1 = (sql_check_grant_role_id role a (db w)).1.
Proof.
  intros Hnone.
  assert (¬ in_overlay (self w) (Grant.user_id a) (Grant.project_id a)) as Hov.
  { unfold in_overlay. destruct Hnone as [-> | ->]; [tauto|].
    destruct (Grant.user_id a); tauto. }
  rewrite list_grant_role_ids_run, check_grant_role_id_run; simpl. split.
  - destruct (sql_list_grant_role_ids a (db w)).1; [|done].
    by rewrite decide_False, app_nil_r.
  - destruct (sql_check_grant_role_id role a (db w)).1 as [[]|e]; [done|].
    by rewrite decide_False by tauto.
Qed.
End reads_together.

(** * Further properties of construction *)

Section construction_outcomes.
Context (CONF : Conf) `{Managers}.

(** The loop of a construction that returns. *)
Lemma init_loop map_file lg this lg' :
  __init__ CONF map_file lg = (Return this, lg') →
  domain_name this = ldap_domain_name CONF ∧
  ∃ lg1 cache,
    for_each (dict_items map_file)
      (user_body CONF (domain_name this) (domain_id this)) ([], []) lg1
    = (Return (userprojectmap this, cache), lg').
Proof.
  unfold __init__, bind, lift.
  destruct (resource_get_project_by_name _ None) as [domain|e]; [|done].
  destruct (getitem domain "id") as [did|e]; [|done].
  destruct (_get_role_id CONF lg) as [[rid|e] lg1]; [|done].
  destruct (for_each _ _ _ lg1) as [[[upm cache]|e] lg2] eqn:Hloop; [|done].
  unfold ret. intros [= <- <-]; simpl. split; [done|]. by exists lg1, cache.
Qed.

(** In a loop that returns, the body has returned for every element, from a
    state where the invariant held. *)
Lemma for_each_visits {S A B} (P : list A → B → Prop)
    (body : A → B → M S B) l acc s r s' x :
  P [] acc →
  (∀ seen y b s b' s',
     P seen b → body y b s = (Return b', s') → P (seen ++ [y]) b') →
  for_each l body acc s = (Return r, s') →
  x ∈ l →
  ∃ seen b s0 b' s0', P seen b ∧ body x b s0 = (Return b', s0').
Proof.
  intros H0 Hstep.
  cut (∀ seen b s0, P seen b → for_each l body b s0 = (Return r, s') →
         x ∈ l → ∃ seen b s0 b' s0', P seen b ∧ body x b s0 = (Return b', s0')).
  { intros Hc. apply (Hc [] acc s H0). }
  induction l as [|y l IH]; intros seen b s0 HP; simpl.
  - by intros _ ?%elem_of_nil.
  - unfold bind. destruct (body y b s0) as [[b'|e] s1] eqn:Hb; [|done].
    intros Hrest [->|Hin]%elem_of_cons.
    + by exists seen, b, s0, b', s1.
    + eapply (IH (seen ++ [y])); eauto.
Qed.

(** X7: Construction needs a default role: when no default role name is
    configured, or the role driver lists no role for the first one,
    [__init__] raises [IndexError]; it has not read the map file and has
    logged nothing. *)
Theorem init_without_default_role map_file lg domain did :
  resource_get_project_by_name (ldap_domain_name CONF) None = Return domain →
  getitem domain "id" = Return did →
  default_roles CONF = [] ∨
  (∃ role_name others,
     default_roles CONF = role_name :: others ∧
     role_list_roles (add_filter "name" role_name Hints_new) = Return []) →
  __init__ CONF map_file lg
  = (Raise (Exn IndexError "list index out of range"), lg).
Proof.
  intros Hdomain Hdid Hrole.
  unfold __init__, _get_role_id, bind, lift, index. rewrite Hdomain, Hdid.
  destruct Hrole as [->|(role_name & others & -> & Hroles)]; simpl; [done|].
  by rewrite Hroles.
Qed.


(** X4: A user the directory finds but for whom the id mapping has no public id
    (or an empty one) is skipped without a warning: its turn in the loop
    changes neither the map, nor the cache, nor the log. *)
Theorem unmapped_user_is_skipped_silently dn did user names st lg found local :
  identity_get_user_by_name user dn = Return found →
  getitem found "id" = Return local →
  id_mapping_get_public_id
    [("domain_id", did); ("local_id", local); ("entity_type", "user")]
    = Return None ∨
  id_mapping_get_public_id
    [("domain_id", did); ("local_id", local); ("entity_type", "user")]
    = Return (Some "") →
  user_body CONF dn did (user, names) st lg = (Return st, lg).
Proof.
  intros Hfound Hlocal Hpublic.
  unfold user_body, _get_user_id, bind, try_except, lift; simpl.
  rewrite Hfound, Hlocal; simpl. by destruct Hpublic as [-> | ->].
Qed.

(** X1: The keys of the constructed map are exactly the non-empty public ids
    that some user name of the file resolves to. *)
Theorem init_keys_are_resolved_users map_file lg this lg' uid :
  __init__ CONF map_file lg = (Return this, lg') →
  uid ∈ dict_keys (userprojectmap this) ↔
  uid ≠ "" ∧
  ∃ user names,
    (user, names) ∈ dict_items map_file ∧ resolves_to_user this user uid.
Proof.
  intros (_ & _ & _ & cache & [_ _ _ Hmap])%init_spec.
  specialize (Hmap uid). simpl in Hmap. rewrite <- dict_get_keys.
  destruct (dict_get (userprojectmap this) uid) as [projects|].
  - destruct Hmap as (Hne & before & user & names & after & -> & Hres & _).
    split; [|eauto]. intros _. split; [done|]. exists user, names.
    split; [|done]. apply elem_of_app. right. apply elem_of_cons. by left.
  - split; [by intros ?%is_Some_None|].
    intros (Hne & user & names & Hin & Hres).
    destruct Hmap as [->|Hall]; [done|].
    rewrite Forall_forall in Hall. by destruct (Hall _ Hin).
Qed.

(** X2: The overlay grants nothing beyond the file: a user and project of the
    constructed map are non-empty ids that a user name of the file and a
    project name listed under it resolve to. *)
Theorem init_overlay_comes_from_file map_file lg this lg' u p :
  __init__ CONF map_file lg = (Return this, lg') →
  in_overlay this (Some u) (Some p) →
  u ≠ "" ∧ p ≠ "" ∧
  ∃ user names name,
    (user, names) ∈ dict_items map_file ∧ resolves_to_user this user u ∧
    name ∈ names ∧ resolves_to_project CONF name p.
Proof.
  intros (_ & _ & _ & cache & [_ _ _ Hmap])%init_spec.
  specialize (Hmap u). simpl in Hmap. unfold in_overlay.
  destruct (dict_get (userprojectmap this) u) as [projects|]; [|done].
  destruct Hmap as (Hne & before & user & names & after & -> & Hres & _ & Hps).
  intros (Hp & name & Hname & Hresp)%Hps. split_and!; [done..|].
  exists user, names, name. split_and!; [|done..].
  apply elem_of_app. right. apply elem_of_cons. by left.
Qed.
End construction_outcomes.

Section construction_failures.
Context (CONF : Conf) `{Managers}.

(** X5: Only [UserNotFound] is tolerated for a user name: when the directory
    raises another exception for some user name of the file, construction
    raises and no object is built. *)
Theorem init_aborts_on_directory_error map_file lg user names e :
  (user, names) ∈ dict_items map_file →
  identity_get_user_by_name user (ldap_domain_name CONF) = Raise e →
  class e ≠ UserNotFound →
  ∃ e', (__init__ CONF map_file lg).1 = Raise e'.
Proof.
  intros Hin Hget Hclass.
  destruct (__init__ CONF map_file lg) as [[this|e'] lg'] eqn:Hinit; [|eauto].
  exfalso. apply init_loop in Hinit as (Hdn & lg1 & cache & Hloop).
  apply (for_each_visits (λ _ _, True) _ _ _ _ _ _ (user, names))
    in Hloop as (_ & st & s0 & st' & s0' & _ & Hbody); [|done..].
  revert Hbody. unfold user_body, _get_user_id, bind, try_except, lift; simpl.
  rewrite Hdn, Hget. by rewrite decide_False.
Qed.

(** Whatever the resource driver raises for a project name listed under a
    user name that resolves, the body of the inner loop raises, and so does
    construction. *)
Lemma init_aborts_on_resource_exception map_file lg domain did user names uid
    name e :
  resource_get_project_by_name (ldap_domain_name CONF) None = Return domain →
  getitem domain "id" = Return did →
  (user, names) ∈ dict_items map_file →
  (_get_user_id (ldap_domain_name CONF) did user []).1 = Return (Some uid) →
  uid ≠ "" →
  name ∈ names →
  resource_get_project_by_name name (Some (default_domain_id CONF)) = Raise e →
  ∃ e', (__init__ CONF map_file lg).1 = Raise e'.
Proof.
  intros Hdomain Hdid Hin Huser Hne Hname Hget.
  destruct (__init__ CONF map_file lg) as [[this|e'] lg'] eqn:Hinit; [|eauto].
  exfalso. pose proof Hinit as (Hdn & lg1 & cache & Hloop)%init_loop.
  apply init_spec in Hinit as (_ & (domain' & Hdomain' & Hdid') & _).
  assert (domain_id this = did) as Hthis by congruence.
  apply (for_each_visits (user_inv CONF this) _ _ _ _ _ _ (user, names))
    in Hloop as (seen & st & s0 & st' & s0' & [Hcache _ _ _] & Hbody);
    [| |by intros ? [??] *; apply user_inv_step|done].
  2: { split; simpl; [done|apply NoDup_nil_2|done|].
       intros ?. right. apply Forall_nil_2. }
  revert Hbody. unfold user_body, bind. cbn [fst snd].
  destruct (_get_user_id _ _ user s0) as [[found|e1] s1] eqn:Hu; [|done].
  assert (found = Some uid) as ->.
  { assert (Return found = Return (Some uid)) as [= ->]; [|done].
    rewrite <- Huser, <- Hdn, <- Hthis.
    rewrite (logs_only_outcome _ [] s0) by apply logs_only_get_user_id.
    by rewrite Hu. }
  rewrite (proj2 (truthy_Some uid) Hne). cbn [negb].
  destruct (for_each names (project_body CONF) (ProjectLoop None st.2 []) s1)
    as [[inner|e2] s2] eqn:Hinner; [|done].
  intros _.
  apply (for_each_visits (project_inv CONF) _ _ _ _ _ _ name)
    in Hinner as (seen' & b & s3 & b' & s3' & [Hcache' _ _ _] & Hbody);
    [| |by intros; eapply project_inv_step|done].
  2: { split; simpl; [done| |apply NoDup_nil_2|done].
       intros pid. split; [by intros ?%elem_of_nil|].
       by intros (_ & n & ?%elem_of_nil & _). }
  revert Hbody. unfold project_body, bind, try_except, lift.
  destruct (dict_get (projectidcache b) name) as [cached|] eqn:Hhit.
  - apply Hcache' in Hhit as (project & Hget' & _). congruence.
  - rewrite Hget. by destruct (decide (class e = ProjectNotFound)).
Qed.


(** X3: a project name that is not found ends construction too: the handler
    of [ProjectNotFound] evaluates [e.message], which raises
    [AttributeError] before anything is logged; so when the resource driver
    raises [ProjectNotFound] for a project name listed under a user name
    that resolves to a non-empty public id, construction raises and no
    object is built. *)
Theorem init_aborts_on_unknown_project map_file lg domain did user names uid
    name e :
  resource_get_project_by_name (ldap_domain_name CONF) None = Return domain →
  getitem domain "id" = Return did →
  (user, names) ∈ dict_items map_file →
  (_get_user_id (ldap_domain_name CONF) did user []).1 = Return (Some uid) →
  uid ≠ "" →
  name ∈ names →
  resource_get_project_by_name name (Some (default_domain_id CONF)) = Raise e →
  class e = ProjectNotFound →
  (∀ st lg0,
     dict_get (projectidcache st) name = None →
     project_body CONF name st lg0
     = (Raise (Exn AttributeError "object has no attribute 'message'"), lg0)) ∧
  ∃ e', (__init__ CONF map_file lg).1 = Raise e'.
Proof.
  intros Hdomain Hdid Hin Huser Hne Hname Hget Hclass. split.
  - intros st lg0 Hmiss.
    unfold project_body, bind, try_except, lift, get_message.
    rewrite Hmiss, Hget. by rewrite decide_True.
  - by eapply init_aborts_on_resource_exception.
Qed.
End construction_failures.

Section reads_of_a_constructed_object.
Context (CONF : Conf) `{Managers}.
Context {DB value : Type} `{!SqlAssignment DB value}.

(** X11: The two listings agree on a constructed object: the record of a user
    and a project is among those [list_role_assignments] appends exactly
    when [list_grant_role_ids] for that user and project appends the default
    role. *)
Theorem assignments_agree_with_grants map_file lg this lg' (w : world DB)
    f rows u p role_ids :
  __init__ CONF map_file lg = (Return this, lg') →
  self w = this →
  (sql_list_role_assignments f (db w)).1 = Return rows →
  (sql_list_grant_role_ids (Grant.Args (Some u) None None (Some p) false)
     (db w)).1 = Return role_ids →
  ∃ appended,
    (list_role_assignments f w).1 = Return (rows ++ appended) ∧
    (synthetic this u p ∈ appended ↔
     (list_grant_role_ids (Grant.Args (Some u) None None (Some p) false) w).1
       = Return (role_ids ++ [role_id this])).
Proof.
  intros [Hnd _]%init_NoDup <- Hrows Hids.
  rewrite list_role_assignments_run, list_grant_role_ids_run; simpl.
  rewrite Hrows, Hids. eexists. split; [done|].
  rewrite overlay_assignments_spec by done. case_decide as Hov; split.
  - done.
  - intros _. by exists u, p.
  - intros (u' & p' & Hov' & [-> ->]%synthetic_inj). done.
  - intros [= Heq]. apply (f_equal length) in Heq.
    rewrite app_nil_r, length_app in Heq. simpl in Heq. lia.
Qed.
End reads_of_a_constructed_object.

(** ** The further properties on the two hosts *)

Section further_on_the_hosts.
Import Demo.

(** X9 on the hosts. *)
Lemma overlay_survives_any_calls_witness :
  (list_grant_role_ids (grant "u-bob" "p-beta")
     (invoke_all Gaps.deletes up)).1
    = Return ([] ++ [role_id (self up)]) ∧
  ((check_grant_role_id (role_id (self up)) (grant "u-bob" "p-beta")
      (invoke_all Gaps.deletes up)).1 = Return tt ∨
   ∃ e, (check_grant_role_id (role_id (self up)) (grant "u-bob" "p-beta")
           (invoke_all Gaps.deletes up)).1 = Raise e ∧
        class e ≠ RoleAssignmentNotFound).
Proof.
  apply (overlay_survives_any_calls Gaps.deletes up (grant "u-bob" "p-beta") []).
  - vm_compute. apply list_elem_of_here.
  - vm_compute. reflexivity.
Defined.

(** X10 on the hosts. *)
Lemma check_agrees_with_list_witness :
  ∃ returned,
    (list_grant_role_ids (grant "u-alice" "p-alpha") up).1 = Return returned ∧
    ((check_grant_role_id "r-member" (grant "u-alice" "p-alpha") up).1
       = Return tt ↔ "r-member" ∈ returned).
Proof.
  apply (check_agrees_with_list "r-member" (grant "u-alice" "p-alpha") up
           ["r-admin"]).
  - vm_compute. reflexivity.
  - right. vm_compute. reflexivity.
  - split.
    + vm_compute. discriminate.
    + intros Hin. apply list_elem_of_singleton in Hin. discriminate.
Defined.

(** X12 on the hosts. *)
Lemma queries_without_user_or_project_witness :
  (list_grant_role_ids (Grant.Args None (Some "g-ops") None (Some "p-beta") false)
     up).1
    = (sql_list_grant_role_ids
         (Grant.Args None (Some "g-ops") None (Some "p-beta") false) (db up)).1 ∧
  (check_grant_role_id "r-member"
     (Grant.Args None (Some "g-ops") None (Some "p-beta") false) up).1
    = (sql_check_grant_role_id "r-member"
         (Grant.Args None (Some "g-ops") None (Some "p-beta") false) (db up)).1.
Proof.
  apply (queries_without_user_or_project "r-member"
           (Grant.Args None (Some "g-ops") None (Some "p-beta") false) up).
  left. reflexivity.
Defined.

(** X7 on the hosts. *)
Lemma init_without_default_role_witness :
  __init__ Gaps.CONF_no_role map_file []
  = (Raise (Exn IndexError "list index out of range"), []).
Proof.
  apply (init_without_default_role Gaps.CONF_no_role map_file []
           [("id", "d-ldap"); ("name", "ldap_users")] "d-ldap").
  - vm_compute. reflexivity.
  - vm_compute. reflexivity.
  - right. exists "Operator", []. split; vm_compute; reflexivity.
Defined.


(** X4 on the hosts. *)
Lemma unmapped_user_is_skipped_silently_witness :
  @user_body CONF Gaps.managers "ldap_users" "d-ldap" ("dave", ["alpha"])
    (userprojectmap driver, []) init_log
  = (Return (userprojectmap driver, []), init_log).
Proof.
  apply (@unmapped_user_is_skipped_silently CONF Gaps.managers "ldap_users"
           "d-ldap" "dave" ["alpha"] (userprojectmap driver, []) init_log
           [("id", "cn=dave"); ("name", "dave")] "cn=dave").
  - vm_compute. reflexivity.
  - vm_compute. reflexivity.
  - left. vm_compute. reflexivity.
Defined.

(** X1 on the hosts. *)
Lemma init_keys_are_resolved_users_witness :
  "u-bob" ∈ dict_keys (userprojectmap driver) ↔
  "u-bob" ≠ "" ∧
  ∃ user names,
    (user, names) ∈ dict_items map_file ∧ resolves_to_user driver user "u-bob".
Proof.
  apply (init_keys_are_resolved_users CONF map_file [] driver init_log "u-bob").
  vm_compute. reflexivity.
Defined.

(** X2 on the hosts. *)
Lemma init_overlay_comes_from_file_witness :
  "u-alice" ≠ "" ∧ "p-beta" ≠ "" ∧
  ∃ user names name,
    (user, names) ∈ dict_items map_file ∧
    resolves_to_user driver user "u-alice" ∧
    name ∈ names ∧ resolves_to_project CONF name "p-beta".
Proof.
  apply (init_overlay_comes_from_file CONF map_file [] driver init_log
           "u-alice" "p-beta").
  - vm_compute. reflexivity.
  - vm_compute. apply list_elem_of_further, list_elem_of_here.
Defined.

(** X5 on the hosts. *)
Lemma init_aborts_on_directory_error_witness :
  ∃ e', (@__init__ CONF Gaps.managers
           [("alice", ["alpha"]); ("erin", ["beta"])] []).1 = Raise e'.
Proof.
  apply (@init_aborts_on_directory_error CONF Gaps.managers
           [("alice", ["alpha"]); ("erin", ["beta"])] [] "erin" ["beta"]
           (Exn (OtherException "LDAPServerDown") "backend failure")).
  - apply list_elem_of_further, list_elem_of_here.
  - vm_compute. reflexivity.
  - discriminate.
Defined.


(** X3 on the hosts. *)
Lemma init_aborts_on_unknown_project_witness :
  (∀ st lg0,
     dict_get (projectidcache st) "ghost" = None →
     project_body CONF "ghost" st lg0
     = (Raise (Exn AttributeError "object has no attribute 'message'"), lg0)) ∧
  ∃ e', (__init__ CONF [("bob", ["beta"; "ghost"])] []).1 = Raise e'.
Proof.
  apply (init_aborts_on_unknown_project CONF [("bob", ["beta"; "ghost"])] []
           [("id", "d-ldap"); ("name", "ldap_users")] "d-ldap"
           "bob" ["beta"; "ghost"] "u-bob" "ghost"
           (Exn ProjectNotFound ("Could not find: " +:+ "ghost"))).
  - vm_compute. reflexivity.
  - vm_compute. reflexivity.
  - apply list_elem_of_here.
  - vm_compute. reflexivity.
  - discriminate.
  - apply list_elem_of_further, list_elem_of_here.
  - vm_compute. reflexivity.
  - reflexivity.
Defined.

(** X11 on the hosts. *)
Lemma assignments_agree_with_grants_witness :
  ∃ appended,
    (list_role_assignments admin_of_alpha up).1
      = Return ([as_entity (Row "r-admin" "u-alice" "p-alpha")] ++ appended) ∧
    (synthetic driver "u-bob" "p-beta" ∈ appended ↔
     (list_grant_role_ids (Grant.Args (Some "u-bob") None None (Some "p-beta")
                             false) up).1
       = Return (["r-member"] ++ [role_id driver])).
Proof.
  apply (assignments_agree_with_grants CONF map_file [] driver init_log up
           admin_of_alpha [as_entity (Row "r-admin" "u-alice" "p-alpha")]
           "u-bob" "p-beta" ["r-member"]).
  - vm_compute. reflexivity.
  - reflexivity.
  - vm_compute. reflexivity.
  - vm_compute. reflexivity.
Defined.
End further_on_the_hosts.
